(** * Library record service: the borrowing lifecycle, in Rocq

    A shallow embedding of the request handlers of [app/routes/borrow_record.py]
    and [app/routes/users.py], of the computed properties of
    [app/database.py] and of the payload schemas of [app/schema.py], with the
    properties the specification states about them.

    Conventions of the embedding.
    - The relational store is a record of finite maps keyed by primary key.
    - A handler is a function from the store (and the clock) to a [Result]:
      [Ok] carries the committed store and the response body, [Raise] carries
      the error.  An exception raised before [session.commit()] leaves the
      store as it was, so a [Raise] carries no store.
    - [date] values are proleptic Gregorian ordinals ([date.toordinal()]),
      [datetime] values are naive: a day ordinal and the microsecond of the day.
    - [float] amounts are rationals.  The only arithmetic the handlers do on
      them is [days * 0.50] and a [min] with [25.00], both exact in binary
      floating point for every day count a [date] difference can produce.
    - A Python [str] is a [string], one character per code point.
    - Parsing a body answers 422 when some field fails; which fields are
      listed in the 422 is not modelled beyond the first one.
    - A handler ends at its commit.  What the route does around it - binding
      a path id as a 64-bit integer, validating the returned row against the
      [response_model] - is the layer of endpoints further down. *)

From Stdlib Require Import ZArith QArith String List Lia.
From stdpp Require Import gmap strings list fin_maps pretty.
From Stdlib Require Import Sorted Ascii.

Local Open Scope Z_scope.

(** ** Dates and datetimes of the Python standard library *)

Module PyDate.

(** [date.toordinal()]: 1 is 0001-01-01. *)
Definition date := Z.

Definition MINORDINAL : Z := 1.
(** [date.max.toordinal()], 9999-12-31. *)
Definition MAXORDINAL : Z := 3652059.

Definition valid (d : date) : bool := (MINORDINAL <=? d) && (d <=? MAXORDINAL).

(** [d + timedelta(days=n)]: [OverflowError] outside [date.min .. date.max]. *)
Definition add_days (d : date) (n : Z) : option date :=
  let o := d + n in
  if (0 <? o) && (o <=? MAXORDINAL) then Some o else None.

(** [(a - b).days] *)
Definition days_between (a b : date) : Z := a - b.

Definition DI400Y : Z := 146097.
Definition DI100Y : Z := 36524.
Definition DI4Y : Z := 1461.

Definition DAYS_IN_MONTH : list Z :=
  [-1; 31; 28; 31; 30; 31; 30; 31; 31; 30; 31; 30; 31].
Definition DAYS_BEFORE_MONTH : list Z :=
  [-1; 0; 31; 59; 90; 120; 151; 181; 212; 243; 273; 304; 334].

Definition table (t : list Z) (i : Z) : Z := nth (Z.to_nat i) t 0.

(** [datetime._ord2ymd] *)
Definition ord2ymd (ordinal : Z) : Z * Z * Z :=
  let n := ordinal - 1 in
  let n400 := n / DI400Y in
  let n := n mod DI400Y in
  let year := n400 * 400 + 1 in
  let n100 := n / DI100Y in
  let n := n mod DI100Y in
  let n4 := n / DI4Y in
  let n := n mod DI4Y in
  let n1 := n / 365 in
  let n := n mod 365 in
  let year := year + n100 * 100 + n4 * 4 + n1 in
  if (n1 =? 4) || (n100 =? 4) then (year - 1, 12, 31)
  else
    let leapyear := (n1 =? 3) && (negb (n4 =? 24) || (n100 =? 3)) in
    let month := Z.shiftr (n + 50) 5 in
    let preceding :=
      table DAYS_BEFORE_MONTH month
      + (if (2 <? month) && leapyear then 1 else 0) in
    if n <? preceding then
      let month := month - 1 in
      let preceding :=
        preceding
        - (table DAYS_IN_MONTH month
           + (if (month =? 2) && leapyear then 1 else 0)) in
      (year, month, n - preceding + 1)
    else (year, month, n - preceding + 1).

(** ["%0<w>d" % n] for a non-negative [n]. *)
Definition zero_pad (w : nat) (n : Z) : string :=
  let s := pretty n in
  String.concat "" (repeat "0"%string (w - String.length s)) +:+ s.

(** [str(d)], which is [d.isoformat()]: ["%04d-%02d-%02d"]. *)
Definition isoformat (d : date) : string :=
  let '(y, m, dd) := ord2ymd d in
  zero_pad 4 y +:+ "-" +:+ zero_pad 2 m +:+ "-" +:+ zero_pad 2 dd.

Record datetime := mk_datetime {
  dt_date : date;      (* [.date()] *)
  dt_micros : Z        (* microsecond of the day *)
}.

Definition dt_ltb (a b : datetime) : bool :=
  (dt_date a <? dt_date b)
  || ((dt_date a =? dt_date b) && (dt_micros a <? dt_micros b)).

Definition dt_lt (a b : datetime) : Prop :=
  dt_date a < dt_date b \/ (dt_date a = dt_date b /\ dt_micros a < dt_micros b).

End PyDate.
Export PyDate.

(** The clock of one request: [date.today()] and the successive readings of
    [datetime.utcnow()] the handler takes. *)
Record Clock := mk_clock {
  today : date;
  utcnow : nat -> datetime
}.

(** ** Enumerations and rows ([app/schema.py], [app/database.py]) *)

Inductive UserRole := ADMIN | LIBRARIAN | MEMBER.

Inductive BookStatus := AVAILABLE | BORROWED | RESERVED | MAINTENANCE | LOST.

Inductive Genre :=
  | FICTION | NON_FICTION | MYSTERY | ROMANCE | SCIENCE_FICTION | FANTASY
  | BIOGRAPHY | HISTORY | SCIENCE | TECHNOLOGY | CHILDREN | YOUNG_ADULT.

Definition BookStatus_eqb (a b : BookStatus) : bool :=
  match a, b with
  | AVAILABLE, AVAILABLE | BORROWED, BORROWED | RESERVED, RESERVED
  | MAINTENANCE, MAINTENANCE | LOST, LOST => true
  | _, _ => false
  end.

Record User := mk_user {
  user_name : string;
  user_email : string;
  user_role : UserRole;
  is_active : bool;
  hashed_password : string
}.

Record Book := mk_book {
  title : string;
  pages : Z;
  language : option string;
  description : option string;
  genre : option Genre;
  status : BookStatus;
  book_updated_at : datetime
}.

Record BorrowRecord := mk_borrow {
  user_id : Z;
  book_id : Z;
  borrowed_date : datetime;
  due_date : date;
  returned_date : option datetime;
  fine_amount : option Q;
  notes : option string
}.

(** Attribute assignment on a managed row. *)
Definition set_status (s : BookStatus) (b : Book) : Book :=
  mk_book (title b) (pages b) (language b) (description b) (genre b) s
          (book_updated_at b).
Definition set_book_updated_at (t : datetime) (b : Book) : Book :=
  mk_book (title b) (pages b) (language b) (description b) (genre b)
          (status b) t.
Definition set_due_date (d : date) (r : BorrowRecord) : BorrowRecord :=
  mk_borrow (user_id r) (book_id r) (borrowed_date r) d (returned_date r)
            (fine_amount r) (notes r).
Definition set_returned_date (t : option datetime) (r : BorrowRecord) : BorrowRecord :=
  mk_borrow (user_id r) (book_id r) (borrowed_date r) (due_date r) t
            (fine_amount r) (notes r).
Definition set_fine_amount (f : option Q) (r : BorrowRecord) : BorrowRecord :=
  mk_borrow (user_id r) (book_id r) (borrowed_date r) (due_date r)
            (returned_date r) f (notes r).
Definition set_notes (s : option string) (r : BorrowRecord) : BorrowRecord :=
  mk_borrow (user_id r) (book_id r) (borrowed_date r) (due_date r)
            (returned_date r) (fine_amount r) s.

(** Truthiness of an [Optional[datetime]]: a [datetime] is always truthy. *)
Definition truthy {A} (o : option A) : bool :=
  match o with Some _ => true | None => false end.

(** *** Computed properties of [BorrowRecord] *)

Definition is_overdue (clk : Clock) (self : BorrowRecord) : bool :=
  if truthy (returned_date self) then false
  else due_date self <? today clk.

Definition days_overdue (clk : Clock) (self : BorrowRecord) : Z :=
  if negb (is_overdue clk self) then 0
  else days_between (today clk) (due_date self).

(** ** The store *)

Record Store := mk_store {
  users : gmap Z User;
  books : gmap Z Book;
  borrow_records : gmap Z BorrowRecord
}.

Definition with_books (bs : gmap Z Book) (s : Store) : Store :=
  mk_store (users s) bs (borrow_records s).
Definition with_borrow_records (rs : gmap Z BorrowRecord) (s : Store) : Store :=
  mk_store (users s) (books s) rs.
Definition with_users (us : gmap Z User) (s : Store) : Store :=
  mk_store us (books s) (borrow_records s).

(** [select(T).where(p)]: the rows of a table that satisfy [p]. *)
Definition select_where {A} (p : A -> bool) (tbl : gmap Z A) : list (Z * A) :=
  List.filter (fun kv => p (snd kv)) (map_to_list tbl).

(** The key an integer primary key gets on insert: one past the largest. *)
Definition next_id {A} (tbl : gmap Z A) : Z :=
  1 + foldr Z.max 0 (map fst (map_to_list tbl)).

(** ** Errors and results *)

Inductive Detail :=
  | UserNotFound
  | UserNotActive
  | BookNotFound
  | BookNotAvailable (current : BookStatus)
  | MaxActiveBorrows (limit : Z)
  | UserHasOverdueBooks
  | BorrowRecordNotFound
  | BookAlreadyReturned
  | CannotExtendReturned
  | CannotDeleteUserWithActiveBorrows.

Inductive PyException :=
  | AttributeError (obj attr : string)
  | NameError (name : string)
  | OverflowError
  | IntegrityError (column : string).

Inductive Error :=
  | HTTPException (status_code : Z) (detail : Detail)
  | RequestValidationError (loc : string)
  | Unhandled (exc : PyException).

(** The status line of the response. *)
Definition response_status (e : Error) : Z :=
  match e with
  | HTTPException c _ => c
  | RequestValidationError _ => 422
  | Unhandled _ => 500
  end.

Inductive Result (A : Type) :=
  | Ok (a : A)
  | Raise (e : Error).
Arguments Ok {A} a.
Arguments Raise {A} e.

#[global] Instance Result_ret : MRet Result := fun _ a => Ok a.
#[global] Instance Result_bind : MBind Result := fun _ _ f m =>
  match m with
  | Ok a => f a
  | Raise e => Raise e
  end.

(** [x = session.get(...); if not x: raise e] *)
Definition or_raise {A} (o : option A) (e : Error) : Result A :=
  match o with Some a => Ok a | None => Raise e end.

(** [if c: raise e] *)
Definition raise_if (c : bool) (e : Error) : Result unit :=
  if c then Raise e else Ok tt.

(** The store a request leaves behind: the committed one, or the one it
    started from when it raised before the commit. *)
Definition store_after {A} (s : Store) (r : Result (Store * A)) : Store :=
  match r with Ok (s', _) => s' | Raise _ => s end.

(** The error classes of the specification (section 7), read off the status
    code and detail of the response. *)
Inductive ErrorClass :=
  | NotFound | ValidationFailed | Conflict | InvalidState
  | LimitExceeded | Blocked | InternalFailure.

Definition classify (e : Error) : ErrorClass :=
  match e with
  | HTTPException _ UserNotFound
  | HTTPException _ BookNotFound
  | HTTPException _ BorrowRecordNotFound => NotFound
  | HTTPException _ UserNotActive => InvalidState
  | HTTPException _ (BookNotAvailable _)
  | HTTPException _ BookAlreadyReturned
  | HTTPException _ CannotExtendReturned
  | HTTPException _ CannotDeleteUserWithActiveBorrows => Conflict
  | HTTPException _ (MaxActiveBorrows _) => LimitExceeded
  | HTTPException _ UserHasOverdueBooks => Blocked
  | RequestValidationError _ => ValidationFailed
  | Unhandled _ => InternalFailure
  end.

(** ** Payload schemas ([app/schema.py]) *)

(** The keyword arguments of a [Field(...)] declaration.  The validation
    library reads the constraint keywords it knows and keeps any other
    keyword as inert metadata. *)
Definition FieldKwargs := list (string * Z).

(** Bounds on a number: [ge], [gt], [le], [lt]. *)
Definition number_constraint (v : Q) (kw : string * Z) : bool :=
  let '(k, b) := kw in
  if String.eqb k "ge" then Qle_bool (inject_Z b) v
  else if String.eqb k "gt" then negb (Qle_bool v (inject_Z b))
  else if String.eqb k "le" then Qle_bool v (inject_Z b)
  else if String.eqb k "lt" then negb (Qle_bool (inject_Z b) v)
  else true.

(** Bounds on a length: [min_length], [max_length] and, for lists, their
    older spellings [min_items], [max_items]. *)
Definition length_constraint (len : nat) (kw : string * Z) : bool :=
  let '(k, b) := kw in
  if String.eqb k "min_length" || String.eqb k "min_items"
  then b <=? Z.of_nat len
  else if String.eqb k "max_length" || String.eqb k "max_items"
  then Z.of_nat len <=? b
  else true.

Definition check_number (kws : FieldKwargs) (v : Q) : bool :=
  forallb (number_constraint v) kws.
Definition check_str (kws : FieldKwargs) (s : string) : bool :=
  forallb (length_constraint (String.length s)) kws.
Definition check_list {A} (kws : FieldKwargs) (l : list A) : bool :=
  forallb (length_constraint (List.length l)) kws.
(** An [Optional] field: [None] passes, a value is checked. *)
Definition check_opt {A} (chk : A -> bool) (o : option A) : bool :=
  match o with Some a => chk a | None => true end.

Module BookSchema.
Definition title_field : FieldKwargs := [("min_length", 2); ("max_length", 100)].
Definition pages_field : FieldKwargs := [("gte", 0); ("lte", 10000)].
Definition language_field : FieldKwargs := [("max_length", 50)].
Definition description_field : FieldKwargs := [("max_length", 1000)].
End BookSchema.

Module BookUpdateSchema.
Definition title_field : FieldKwargs := [("min_length", 1); ("max_length", 200)].
Definition pages_field : FieldKwargs := [("gt", 0); ("le", 10000)].
Definition language_field : FieldKwargs := [("max_length", 30)].
End BookUpdateSchema.

(** [BookCreateSchema(BookSchema)]: the body of a book creation. *)
Record BookCreateSchema := mk_book_create {
  bc_title : string;
  bc_pages : Z;
  bc_language : option string;
  bc_description : option string;
  bc_genre : option Genre;
  bc_status : BookStatus;
  bc_author_ids : list Z
}.

Definition author_ids_field : FieldKwargs := [("min_items", 1)].

Definition validate_title (s : string) : bool :=
  check_str BookSchema.title_field s.
Definition validate_pages (n : Z) : bool :=
  check_number BookSchema.pages_field (inject_Z n).
Definition validate_author_ids (l : list Z) : bool :=
  check_list author_ids_field l.

Definition validate_book_create (b : BookCreateSchema) : bool :=
  validate_title (bc_title b)
  && validate_pages (bc_pages b)
  && check_opt (check_str BookSchema.language_field) (bc_language b)
  && check_opt (check_str BookSchema.description_field) (bc_description b)
  && validate_author_ids (bc_author_ids b).

(** [BorrowRecordSchema] *)
Definition fine_amount_field : FieldKwargs := [("ge", 0)].
Definition notes_field : FieldKwargs := [("max_length", 500)].

(** The body of [POST /borrow-records]: [borrowed_date] may be left out,
    its default is [datetime.utcnow()]. *)
Record BorrowCreateBody := mk_create_body {
  body_borrowed_date : option datetime;
  body_due_date : date;
  body_returned_date : option datetime;
  body_fine_amount : option Q;
  body_notes : option string;
  body_user_id : Z;
  body_book_id : Z
}.

(** A validated [BorrowRecordCreateSchema]. *)
Record BorrowRecordCreateSchema := mk_create {
  c_borrowed_date : datetime;
  c_due_date : date;
  c_returned_date : option datetime;
  c_fine_amount : option Q;
  c_notes : option string;
  c_user_id : Z;
  c_book_id : Z
}.

(** [validate_due_date]: rejects [v <= values["borrowed_date"].date()]. *)
Definition validate_due_date (v : date) (borrowed : datetime) : bool :=
  negb (v <=? dt_date borrowed).

(** [validate_returned_date]: rejects a supplied [v < values["borrowed_date"]]. *)
Definition validate_returned_date (v : option datetime) (borrowed : datetime) : bool :=
  match v with
  | Some t => negb (dt_ltb t borrowed)
  | None => true
  end.

Definition parse_borrow_create (clk : Clock) (body : BorrowCreateBody)
  : Result BorrowRecordCreateSchema :=
  let borrowed := default (utcnow clk 0) (body_borrowed_date body) in
  raise_if (negb (validate_due_date (body_due_date body) borrowed))
           (RequestValidationError "due_date");;
  raise_if (negb (validate_returned_date (body_returned_date body) borrowed))
           (RequestValidationError "returned_date");;
  raise_if (negb (check_opt (check_number fine_amount_field) (body_fine_amount body)))
           (RequestValidationError "fine_amount");;
  raise_if (negb (check_opt (check_str notes_field) (body_notes body)))
           (RequestValidationError "notes");;
  mret (mk_create borrowed (body_due_date body) (body_returned_date body)
                  (body_fine_amount body) (body_notes body)
                  (body_user_id body) (body_book_id body)).

(** [BorrowRecordUpdateSchema]: every field optional; the outer [option] is
    "set in the body or not" ([exclude_unset]), the inner one the value,
    which may be [null]. *)
Record BorrowRecordUpdateSchema := mk_update {
  u_due_date : option (option date);
  u_returned_date : option (option datetime);
  u_fine_amount : option (option Q);
  u_notes : option (option string)
}.

Definition parse_borrow_update (body : BorrowRecordUpdateSchema)
  : Result BorrowRecordUpdateSchema :=
  raise_if (negb (check_opt (check_opt (check_number fine_amount_field))
                            (u_fine_amount body)))
           (RequestValidationError "fine_amount");;
  raise_if (negb (check_opt (check_opt (check_str notes_field)) (u_notes body)))
           (RequestValidationError "notes");;
  mret body.

(** ** Borrow-record handlers ([app/routes/borrow_record.py]) *)

(** Truthiness of a list: empty is falsy. *)
Definition nonempty {A} (l : list A) : bool :=
  match l with [] => false | _ :: _ => true end.

(** [BorrowRecord.returned_date.is_(None)] *)
Definition is_null {A} (o : option A) : bool := negb (truthy o).

(** [user_id == uid AND returned_date IS NULL] *)
Definition active_of_user (uid : Z) (r : BorrowRecord) : bool :=
  (user_id r =? uid) && is_null (returned_date r).

(** [user_id == uid AND returned_date IS NULL AND due_date < date.today()] *)
Definition overdue_of_user (clk : Clock) (uid : Z) (r : BorrowRecord) : bool :=
  (user_id r =? uid) && is_null (returned_date r) && (due_date r <? today clk).

Definition MAX_ACTIVE_BORROWS : Z := 5.

(** The row built from [borrow_data.model_dump()]: every field of the
    payload, under its own name. *)
Definition BorrowRecord_of_dump (borrow_data : BorrowRecordCreateSchema) : BorrowRecord :=
  mk_borrow (c_user_id borrow_data) (c_book_id borrow_data)
            (c_borrowed_date borrow_data) (c_due_date borrow_data)
            (c_returned_date borrow_data) (c_fine_amount borrow_data)
            (c_notes borrow_data).

(** Reading 0 of the clock is the default of [borrowed_date], taken when the
    body is parsed; the handler takes reading 1. *)
Definition create_borrow_record (clk : Clock)
    (borrow_data : BorrowRecordCreateSchema) (session : Store)
  : Result (Store * (Z * BorrowRecord)) :=
  user ← or_raise (users session !! c_user_id borrow_data)
                  (HTTPException 404 UserNotFound);
  raise_if (negb (is_active user)) (HTTPException 400 UserNotActive);;
  book ← or_raise (books session !! c_book_id borrow_data)
                  (HTTPException 404 BookNotFound);
  raise_if (negb (BookStatus_eqb (status book) AVAILABLE))
           (HTTPException 400 (BookNotAvailable (status book)));;
  let active_borrows_count :=
    Z.of_nat (List.length (select_where (active_of_user (c_user_id borrow_data))
                                        (borrow_records session))) in
  raise_if (MAX_ACTIVE_BORROWS <=? active_borrows_count)
           (HTTPException 400 (MaxActiveBorrows MAX_ACTIVE_BORROWS));;
  let overdue_books :=
    select_where (overdue_of_user clk (c_user_id borrow_data))
                 (borrow_records session) in
  raise_if (nonempty overdue_books) (HTTPException 400 UserHasOverdueBooks);;
  let db_borrow := BorrowRecord_of_dump borrow_data in
  let new_id := next_id (borrow_records session) in
  let book := set_book_updated_at (utcnow clk 1) (set_status BORROWED book) in
  mret (mk_store (users session)
                 (<[c_book_id borrow_data := book]> (books session))
                 (<[new_id := db_borrow]> (borrow_records session)),
        (new_id, db_borrow)).

(** [POST /borrow-records]: the body is parsed, then handled. *)
Definition post_borrow_record (clk : Clock) (body : BorrowCreateBody)
    (session : Store) : Result (Store * (Z * BorrowRecord)) :=
  borrow_data ← parse_borrow_create clk body;
  create_borrow_record clk borrow_data session.

Definition FINE_PER_DAY : Q := 1 # 2.
Definition MAX_FINE : Q := 25 # 1.

(** [min(a, b)] on floats: [b] only when [b < a]. *)
Definition py_min (a b : Q) : Q := if Qle_bool a b then a else b.

(** The fine formula of [return_book]. *)
Definition fine_for (days : Z) : Q :=
  py_min (inject_Z days * FINE_PER_DAY) MAX_FINE.

Definition return_book (clk : Clock) (borrow_id : Z) (session : Store)
  : Result (Store * BorrowRecord) :=
  borrow_record ← or_raise (borrow_records session !! borrow_id)
                           (HTTPException 404 BorrowRecordNotFound);
  raise_if (truthy (returned_date borrow_record))
           (HTTPException 400 BookAlreadyReturned);;
  let borrow_record := set_returned_date (Some (utcnow clk 0)) borrow_record in
  let borrow_record :=
    if is_overdue clk borrow_record
    then set_fine_amount (Some (fine_for (days_overdue clk borrow_record)))
                         borrow_record
    else borrow_record in
  book ← or_raise (books session !! book_id borrow_record)
                  (Unhandled (AttributeError "NoneType" "status"));
  let book := set_book_updated_at (utcnow clk 1) (set_status AVAILABLE book) in
  mret (mk_store (users session)
                 (<[book_id borrow_record := book]> (books session))
                 (<[borrow_id := borrow_record]> (borrow_records session)),
        borrow_record).

(** [Query(..., ge=1, le=30)] *)
Definition extend_days_query : FieldKwargs := [("ge", 1); ("le", 30)].

(** [f"Extended by {extend_days} days on {date.today()}"] *)
Definition extension_note (clk : Clock) (extend_days : Z) : string :=
  "Extended by " +:+ pretty extend_days +:+ " days on " +:+ isoformat (today clk).

Definition extend_due_date (clk : Clock) (borrow_id extend_days : Z)
    (session : Store) : Result (Store * BorrowRecord) :=
  raise_if (negb (check_number extend_days_query (inject_Z extend_days)))
           (RequestValidationError "extend_days");;
  borrow_record ← or_raise (borrow_records session !! borrow_id)
                           (HTTPException 404 BorrowRecordNotFound);
  raise_if (truthy (returned_date borrow_record))
           (HTTPException 400 CannotExtendReturned);;
  due ← or_raise (add_days (due_date borrow_record) extend_days)
                 (Unhandled OverflowError);
  let borrow_record := set_due_date due borrow_record in
  let borrow_record :=
    set_notes (Some (extension_note clk extend_days)) borrow_record in
  mret (with_borrow_records
          (<[borrow_id := borrow_record]> (borrow_records session)) session,
        borrow_record).

(** [setattr(borrow_record, field, value)] for every field set in the body.
    [due_date] is the one patched column that is NOT NULL: a [null] for it
    fails at the commit. *)
Definition update_borrow_record (borrow_id : Z)
    (borrow_update : BorrowRecordUpdateSchema) (session : Store)
  : Result (Store * BorrowRecord) :=
  borrow_record ← or_raise (borrow_records session !! borrow_id)
                           (HTTPException 404 BorrowRecordNotFound);
  let borrow_record :=
    from_option (fun v => set_returned_date v borrow_record) borrow_record
                (u_returned_date borrow_update) in
  let borrow_record :=
    from_option (fun v => set_fine_amount v borrow_record) borrow_record
                (u_fine_amount borrow_update) in
  let borrow_record :=
    from_option (fun v => set_notes v borrow_record) borrow_record
                (u_notes borrow_update) in
  borrow_record ←
    match u_due_date borrow_update with
    | None => Ok borrow_record
    | Some (Some d) => Ok (set_due_date d borrow_record)
    | Some None => Raise (Unhandled (IntegrityError "due_date"))
    end;
  mret (with_borrow_records
          (<[borrow_id := borrow_record]> (borrow_records session)) session,
        borrow_record).

(** [PATCH /borrow-records/{id}]: the body is parsed, then handled. *)
Definition patch_borrow_record (borrow_id : Z) (body : BorrowRecordUpdateSchema)
    (session : Store) : Result (Store * BorrowRecord) :=
  borrow_update ← parse_borrow_update body;
  update_borrow_record borrow_id borrow_update session.

(** The first write of [delete_borrow_record]: release the book. *)
Definition release_book (clk : Clock) (bid : Z) (session : Store) : Result Store :=
  book ← or_raise (books session !! bid)
                  (Unhandled (AttributeError "NoneType" "status"));
  let book := set_book_updated_at (utcnow clk 0) (set_status AVAILABLE book) in
  mret (with_books (<[bid := book]> (books session)) session).

(** The second write: [session.delete(borrow_record)]. *)
Definition remove_record (borrow_id : Z) (session : Store) : Store :=
  with_borrow_records (delete borrow_id (borrow_records session)) session.

Definition delete_borrow_record (clk : Clock) (borrow_id : Z) (session : Store)
  : Result (Store * unit) :=
  borrow_record ← or_raise (borrow_records session !! borrow_id)
                           (HTTPException 404 BorrowRecordNotFound);
  session ←
    (if negb (truthy (returned_date borrow_record))
     then release_book clk (book_id borrow_record) session
     else mret session);
  mret (remove_record borrow_id session, tt).

(** ** User deletion ([app/routes/users.py]) *)

(** The names bound at module level in [routes/users.py]: its imports, the
    router and its handlers. *)
Definition users_py_globals : list string :=
  [ "datetime"; "List"; "APIRouter"; "Depends"; "HTTPException"; "Query";
    "Session"; "and_"; "or_"; "select"; "check_email_exists";
    "get_password_hash"; "User"; "get_session"; "UserCreateSchema";
    "UserReadSchema"; "UserRole"; "UserUpdateSchema"; "router";
    "create_user"; "get_user"; "list_users"; "update_user"; "patch_user";
    "delete_user"; "deactivate_user"; "activate_user"; "search_users" ].

(** Loading a global name: [NameError] when the module does not bind it. *)
Definition load_global (globals : list string) (name : string) : Result unit :=
  raise_if (negb (existsb (String.eqb name) globals)) (Unhandled (NameError name)).

(** [delete_user], over the module namespace it runs in. *)
Definition delete_user_in (globals : list string) (uid : Z) (session : Store)
  : Result (Store * unit) :=
  user ← or_raise (users session !! uid) (HTTPException 404 UserNotFound);
  load_global globals "BorrowRecord";;
  let active_borrows :=
    select_where (active_of_user uid) (borrow_records session) in
  raise_if (nonempty active_borrows)
           (HTTPException 400 CannotDeleteUserWithActiveBorrows);;
  mret (with_users (delete uid (users session)) session, tt).

Definition delete_user : Z -> Store -> Result (Store * unit) :=
  delete_user_in users_py_globals.

(** ** A small library, for the concrete runs below *)

Module Sample.

(** 2024-03-01 *)
Definition day0 : date := 738946.

Definition clk : Clock :=
  mk_clock day0 (fun k => mk_datetime day0 (36000000000 + Z.of_nat k)).

Definition alice : User := mk_user "Alice Martin" "alice@example.org" MEMBER true "$2b$12$h".
Definition bruno : User := mk_user "Bruno Keller" "bruno@example.org" MEMBER true "$2b$12$k".

Definition stamp : datetime := mk_datetime 738900 0.

Definition dune : Book :=
  mk_book "Dune" 612 (Some "English") None (Some SCIENCE_FICTION) BORROWED stamp.
Definition emma : Book :=
  mk_book "Emma" 474 (Some "English") None (Some ROMANCE) AVAILABLE stamp.

(** Borrowed on 2024-02-05, due ten days before [day0], still out. *)
Definition late_loan : BorrowRecord :=
  mk_borrow 1 10 (mk_datetime 738921 0) (day0 - 10) None None
            (Some "Handle with care").

Definition library : Store :=
  mk_store (<[1 := alice]> (<[2 := bruno]> ∅))
           (<[10 := dune]> (<[11 := emma]> ∅))
           (<[100 := late_loan]> ∅).

(** The same loan, a hundred days late. *)
Definition very_late_loan : BorrowRecord := set_due_date (day0 - 100) late_loan.

Definition library_100 : Store :=
  with_borrow_records (<[100 := very_late_loan]> ∅) library.

(** The same loan, not yet due. *)
Definition timely_loan : BorrowRecord := set_due_date (day0 + 4) late_loan.

Definition library_timely : Store :=
  with_borrow_records (<[100 := timely_loan]> ∅) library.

(** The loan, returned two days after it was taken. *)
Definition closed_loan : BorrowRecord :=
  set_returned_date (Some (mk_datetime 738923 0)) late_loan.

Definition library_closed : Store :=
  mk_store (users library)
           (<[10 := set_status AVAILABLE dune]> (books library))
           (<[100 := closed_loan]> ∅).

(** The loan, due on 9999-12-28. *)
Definition far_loan : BorrowRecord := set_due_date (MAXORDINAL - 3) late_loan.

Definition library_far : Store :=
  with_borrow_records (<[100 := far_loan]> ∅) library.

(** A plain borrow of "Emma" by Bruno, as parsed: two weeks, nothing else. *)
Definition plain_borrow : BorrowRecordCreateSchema :=
  mk_create (utcnow clk 0) (day0 + 14) None None None 2 11.

(** A body whose due date is the day the loan begins. *)
Definition same_day_body : BorrowCreateBody :=
  mk_create_body None day0 None None None 2 11.

(** A patch that sets [returned_date] to 2024-01-15, before the loan began. *)
Definition early : datetime := mk_datetime 738900 0.
Definition early_return_patch : BorrowRecordUpdateSchema :=
  mk_update None (Some (Some early)) None None.

(** A borrow of "Emma" by Bruno that arrives with [returned_date] filled in,
    as a body and as parsed. *)
Definition next_day : datetime := mk_datetime (day0 + 1) 0.
Definition returned_on_arrival : BorrowCreateBody :=
  mk_create_body None (day0 + 14) (Some next_day) None None 2 11.
Definition returned_on_arrival_parsed : BorrowRecordCreateSchema :=
  mk_create (utcnow clk 0) (day0 + 14) (Some next_day) None None 2 11.

(** A title of 150 characters. *)
Definition long_title : string := String.concat "" (repeat "a"%string 150).

Definition pamphlet : BookCreateSchema :=
  mk_book_create "Dune" 612 (Some "English"%string) None (Some SCIENCE_FICTION)
                 AVAILABLE [7].


End Sample.

(** ** Vocabulary of the statements *)

(** The user's ACTIVE records, and those of them that are OVERDUE, as the
    two queries of [create_borrow_record] select them. *)
Definition active_borrows (p : BorrowRecordCreateSchema) (st : Store)
  : list (Z * BorrowRecord) :=
  select_where (active_of_user (c_user_id p)) (borrow_records st).
Definition overdue_borrows (clk : Clock) (p : BorrowRecordCreateSchema) (st : Store)
  : list (Z * BorrowRecord) :=
  select_where (overdue_of_user clk (c_user_id p)) (borrow_records st).

(** The store a successful create commits, for the book row [b] it found. *)
Definition created_store (clk : Clock) (p : BorrowRecordCreateSchema) (st : Store)
    (b : Book) : Store :=
  mk_store (users st)
           (<[c_book_id p := set_book_updated_at (utcnow clk 1) (set_status BORROWED b)]>
              (books st))
           (<[next_id (borrow_records st) := BorrowRecord_of_dump p]>
              (borrow_records st)).

(** [book_id == bid AND returned_date IS NULL]: the ACTIVE records that
    reference a book. *)
Definition active_of_book (bid : Z) (r : BorrowRecord) : bool :=
  (book_id r =? bid) && is_null (returned_date r).

(** ** Endpoints: the handler between the path id and the response *)

(** The store binds an id as a 64-bit integer; [session.get] with an id
    outside that range raises [OverflowError]. *)
Definition INT64_MIN : Z := - 2 ^ 63.
Definition INT64_MAX : Z := 2 ^ 63 - 1.
Definition fits_int64 (n : Z) : bool := (INT64_MIN <=? n) && (n <=? INT64_MAX).

(** What the client gets: the body, an error raised by the handler, or the
    500 of a returned row that the [response_model] refuses. *)
Inductive Outcome (A : Type) :=
  | Answer (body : A)
  | Failure (e : Error)
  | ResponseInvalid (loc : string).
Arguments Answer {A} body.
Arguments Failure {A} e.
Arguments ResponseInvalid {A} loc.

Definition outcome_status {A} (o : Outcome A) : Z :=
  match o with
  | Answer _ => 200
  | Failure e => response_status e
  | ResponseInvalid _ => 500
  end.

(** A request's result: the store it leaves committed, and the outcome. *)
Record Response (A : Type) := mk_response {
  committed : Store;
  outcome : Outcome A
}.
Arguments mk_response {A} committed outcome.
Arguments committed {A} r.
Arguments outcome {A} r.

(** [UserSchema.name]: [Field(..., min_length=4, max_length=100)] *)
Definition user_name_field : FieldKwargs := [("min_length", 4); ("max_length", 100)].

(** [UserReadSchema] on a stored user.  [email_ok] is the [EmailStr] check of
    the validation library. *)
Definition validate_user_read (email_ok : string -> bool) (u : User) : bool :=
  check_str user_name_field (user_name u) && email_ok (user_email u).

(** [BorrowRecordReadSchema] on the row a handler returns: the fields and
    validators it inherits from [BorrowRecordSchema], then the [user] and the
    [book] of the row, both required.  [None] when the row renders, else the
    first field that fails. *)
Definition read_schema_error (email_ok : string -> bool) (st : Store)
    (r : BorrowRecord) : option string :=
  if negb (validate_due_date (due_date r) (borrowed_date r))
  then Some "due_date"%string
  else if negb (validate_returned_date (returned_date r) (borrowed_date r))
  then Some "returned_date"%string
  else if negb (check_opt (check_number fine_amount_field) (fine_amount r))
  then Some "fine_amount"%string
  else if negb (check_opt (check_str notes_field) (notes r))
  then Some "notes"%string
  else match users st !! user_id r with
       | None => Some "user"%string
       | Some u =>
           if negb (validate_user_read email_ok u) then Some "user"%string
           else match books st !! book_id r with
                | None => Some "book"%string
                | Some _ => None
                end
       end.

(** The response of a handler's result: an exception before the commit
    leaves the store; a returned row is rendered against the committed
    store, and a row that fails is a 500 after the commit. *)
Definition respond {A} (render : Store -> A -> option string) (st : Store)
    (res : Result (Store * A)) : Response A :=
  match res with
  | Raise e => mk_response st (Failure e)
  | Ok (st', a) =>
      match render st' a with
      | None => mk_response st' (Answer a)
      | Some loc => mk_response st' (ResponseInvalid loc)
      end
  end.



(** [PATCH /borrow-records/{id}], [response_model=BorrowRecordReadSchema]:
    the body is parsed before the handler runs. *)
Definition patch_endpoint (email_ok : string -> bool) (id : Z)
    (body : BorrowRecordUpdateSchema) (st : Store) : Response BorrowRecord :=
  match parse_borrow_update body with
  | Raise e => mk_response st (Failure e)
  | Ok borrow_update =>
      if negb (fits_int64 id)
      then mk_response st (Failure (Unhandled OverflowError))
      else respond (read_schema_error email_ok) st
                   (update_borrow_record id borrow_update st)
  end.


(** The ACTIVE records of a user, and those of them that are OVERDUE, read
    off the table by the words of the specification. *)
Definition active_records (uid : Z) (st : Store) : gmap Z BorrowRecord :=
  filter (fun kr => user_id (snd kr) = uid /\ returned_date (snd kr) = None)
         (borrow_records st).
Definition overdue_records (clk : Clock) (uid : Z) (st : Store) : gmap Z BorrowRecord :=
  filter (fun kr => user_id (snd kr) = uid /\ returned_date (snd kr) = None
                    /\ due_date (snd kr) < today clk)
         (borrow_records st).

(** Unfold the bind and return of [Result]. *)
Ltac unfold_result :=
  unfold mbind, mret, Result_bind, Result_ret, or_raise, raise_if in *.


(** ** The remaining borrow-record routes ([app/routes/borrow_record.py]) *)

(** [GET /borrow-records/{id}] *)
Definition get_borrow_record (borrow_id : Z) (session : Store) : Result BorrowRecord :=
  or_raise (borrow_records session !! borrow_id)
           (HTTPException 404 BorrowRecordNotFound).

(** *** Listings *)

(** [ORDER BY]: the rows, sorted by [le].  SQL leaves the order of rows that
    compare equal open; this sort fixes one, and no statement below depends
    on which. *)
Fixpoint insert_sorted {A} (le : A -> A -> bool) (x : A) (l : list A) : list A :=
  match l with
  | [] => [x]
  | y :: l' => if le x y then x :: y :: l' else y :: insert_sorted le x l'
  end.

Definition order_by {A} (le : A -> A -> bool) (l : list A) : list A :=
  foldr (insert_sorted le) [] l.

(** [OFFSET o LIMIT n] as the SQLite store runs them: a negative limit is no
    limit. *)
Definition offset_limit {A} (offset limit : Z) (rows : list A) : list A :=
  let rows := drop (Z.to_nat offset) rows in
  if limit <? 0 then rows else take (Z.to_nat limit) rows.

(** [if user_id:] an id that is left out, or 0, adds no filter. *)
Definition int_truthy (o : option Z) : bool :=
  match o with Some n => negb (n =? 0) | None => false end.

(** The query parameters of [GET /borrow-records]. *)
Record BorrowListParams := mk_list_params {
  lp_user_id : option Z;
  lp_book_id : option Z;
  lp_is_returned : option bool;
  lp_is_overdue : option bool;
  lp_limit : Z;
  lp_offset : Z
}.

(** [Query(20, le=100)], [Query(50, le=200)] and [Query(0, ge=0)] *)
Definition list_limit_query : FieldKwargs := [("le", 100)].
Definition page_limit_query : FieldKwargs := [("le", 200)].
Definition offset_query : FieldKwargs := [("ge", 0)].

(** The [where] clauses [list_borrow_records] adds, one per parameter. *)
Definition where_user (q : BorrowListParams) (r : BorrowRecord) : bool :=
  if int_truthy (lp_user_id q) then user_id r =? default 0 (lp_user_id q) else true.
Definition where_book (q : BorrowListParams) (r : BorrowRecord) : bool :=
  if int_truthy (lp_book_id q) then book_id r =? default 0 (lp_book_id q) else true.
Definition where_returned (q : BorrowListParams) (r : BorrowRecord) : bool :=
  match lp_is_returned q with
  | Some true => truthy (returned_date r)
  | Some false => is_null (returned_date r)
  | None => true
  end.
Definition where_overdue (clk : Clock) (q : BorrowListParams) (r : BorrowRecord) : bool :=
  match lp_is_overdue q with
  | Some true => is_null (returned_date r) && (due_date r <? today clk)
  | Some false => truthy (returned_date r) || (today clk <=? due_date r)
  | None => true
  end.
Definition list_where (clk : Clock) (q : BorrowListParams) (r : BorrowRecord) : bool :=
  where_user q r && where_book q r && where_returned q r && where_overdue clk q r.

(** [BorrowRecord.borrowed_date.desc()] *)
Definition newest_first (x y : Z * BorrowRecord) : bool :=
  negb (dt_ltb (borrowed_date (snd x)) (borrowed_date (snd y))).

(** [BorrowRecord.due_date], ascending *)
Definition earliest_due_first (x y : Z * BorrowRecord) : bool :=
  due_date (snd x) <=? due_date (snd y).

Definition list_borrow_records (clk : Clock) (q : BorrowListParams)
    (session : Store) : Result (list (Z * BorrowRecord)) :=
  raise_if (negb (check_number list_limit_query (inject_Z (lp_limit q))))
           (RequestValidationError "limit");;
  raise_if (negb (check_number offset_query (inject_Z (lp_offset q))))
           (RequestValidationError "offset");;
  mret (offset_limit (lp_offset q) (lp_limit q)
          (order_by newest_first
             (select_where (list_where clk q) (borrow_records session)))).

(** [returned_date IS NULL AND due_date < date.today()] *)
Definition overdue_where (clk : Clock) (r : BorrowRecord) : bool :=
  is_null (returned_date r) && (due_date r <? today clk).

(** [GET /borrow-records/overdue/] *)
Definition get_overdue_records (clk : Clock) (limit offset : Z) (session : Store)
  : Result (list (Z * BorrowRecord)) :=
  raise_if (negb (check_number page_limit_query (inject_Z limit)))
           (RequestValidationError "limit");;
  raise_if (negb (check_number offset_query (inject_Z offset)))
           (RequestValidationError "offset");;
  mret (offset_limit offset limit
          (order_by earliest_due_first
             (select_where (overdue_where clk) (borrow_records session)))).

(** [Query(3, ge=1, le=7)] *)
Definition days_query : FieldKwargs := [("ge", 1); ("le", 7)].

(** [returned_date IS NULL AND due_date <= due_date_limit AND
    due_date >= date.today()] *)
Definition due_soon_where (clk : Clock) (due_date_limit : date) (r : BorrowRecord) : bool :=
  is_null (returned_date r) && (due_date r <=? due_date_limit)
  && (today clk <=? due_date r).

(** [GET /borrow-records/due-soon/] *)
Definition get_due_soon_records (clk : Clock) (days limit offset : Z)
    (session : Store) : Result (list (Z * BorrowRecord)) :=
  raise_if (negb (check_number days_query (inject_Z days)))
           (RequestValidationError "days");;
  raise_if (negb (check_number page_limit_query (inject_Z limit)))
           (RequestValidationError "limit");;
  raise_if (negb (check_number offset_query (inject_Z offset)))
           (RequestValidationError "offset");;
  due_date_limit ← or_raise (add_days (today clk) days) (Unhandled OverflowError);
  mret (offset_limit offset limit
          (order_by earliest_due_first
             (select_where (due_soon_where clk due_date_limit)
                           (borrow_records session)))).

(** [response_model=List[BorrowRecordReadSchema]]: every row is rendered;
    [None] when all of them do, else what fails in the first that does not. *)
Fixpoint render_rows (email_ok : string -> bool) (st : Store)
    (rows : list (Z * BorrowRecord)) : option string :=
  match rows with
  | [] => None
  | (_, r) :: rows' =>
      match read_schema_error email_ok st r with
      | Some loc => Some loc
      | None => render_rows email_ok st rows'
      end
  end.

(** The due-soon route around its handler: the query parameters are checked
    first, [limit] and [offset] are bound as 64-bit integers when the query
    runs, and the rows are rendered. *)
Definition due_soon_endpoint (email_ok : string -> bool) (clk : Clock)
    (days limit offset : Z) (st : Store) : Response (list (Z * BorrowRecord)) :=
  match get_due_soon_records clk days limit offset st with
  | Raise e => mk_response st (Failure e)
  | Ok rows =>
      if negb (fits_int64 limit && fits_int64 offset)
      then mk_response st (Failure (Unhandled OverflowError))
      else respond (render_rows email_ok) st (Ok (st, rows))
  end.

(** ** More of the payload schemas ([app/schema.py]) *)

(** [BookUpdateSchema]: the fields that carry constraints, and the rest. *)
Record BookUpdateBody := mk_book_update {
  bu_title : option string;
  bu_pages : option Z;
  bu_language : option string;
  bu_description : option string;
  bu_genre : option Genre;
  bu_status : option BookStatus;
  bu_author_ids : option (list Z)
}.

Definition validate_update_title (s : string) : bool :=
  check_str BookUpdateSchema.title_field s.
Definition validate_update_pages (n : Z) : bool :=
  check_number BookUpdateSchema.pages_field (inject_Z n).

Definition validate_book_update (b : BookUpdateBody) : bool :=
  check_opt validate_update_title (bu_title b)
  && check_opt validate_update_pages (bu_pages b)
  && check_opt (check_str BookUpdateSchema.language_field) (bu_language b).

(** A password is taken as the list of its code points, so that every
    character a Python [str] can hold is there.

    [re.search(class, v)]: some character of [v] is in the class. *)
Definition re_search (class : N -> bool) (v : list N) : bool := existsb class v.

(** The class [[A-Za-z]]. *)
Definition ascii_letter (c : N) : bool :=
  (((65 <=? c) && (c <=? 90)) || ((97 <=? c) && (c <=? 122)))%N.

(** [UserCreateSchema.password]: [Field(min_length=8)], then
    [validate_password].  The class [\d] of the [re] module - every Unicode
    decimal digit - is the parameter [decimal_digit]. *)
Definition password_field : FieldKwargs := [("min_length", 8)].

Definition validate_password (decimal_digit : N -> bool) (v : list N)
  : Result (list N) :=
  raise_if (negb (re_search ascii_letter v)) (RequestValidationError "password");;
  raise_if (negb (re_search decimal_digit v)) (RequestValidationError "password");;
  mret v.

Definition parse_password (decimal_digit : N -> bool) (v : list N)
  : Result (list N) :=
  raise_if (negb (check_list password_field v)) (RequestValidationError "password");;
  validate_password decimal_digit v.

(** ** Users and login ([app/routes/users.py], [app/auth.py]) *)

(** The rows of users in this model carry no timestamps; what the handlers
    below do to [created_at] and [updated_at] is not represented.  The
    credential functions of [passlib] are parameters. *)

Inductive AccountDetail := EmailAlreadyRegistered | IncorrectEmailOrPassword.

Inductive AccountError := AccountHTTP (status_code : Z) (detail : AccountDetail).

(** A validated [UserCreateSchema]. *)
Record UserCreateSchema := mk_user_create {
  uc_name : string;
  uc_email : string;
  uc_role : UserRole;
  uc_is_active : bool;
  uc_password : string
}.

(** [select(User).where(User.email == email)] *)
Definition users_by_email (email : string) (session : Store) : list (Z * User) :=
  select_where (fun u => String.eqb (user_email u) email) (users session).

(** [check_email_exists]: [.first() is not None] *)
Definition check_email_exists (session : Store) (email : string) : bool :=
  truthy (head (users_by_email email session)).

(** [create_user]; [register] in [routes/auth.py] has the same body. *)
Definition create_user (get_password_hash : string -> string)
    (user_data : UserCreateSchema) (session : Store)
  : AccountError + (Store * (Z * User)) :=
  if check_email_exists session (uc_email user_data)
  then inl (AccountHTTP 400 EmailAlreadyRegistered)
  else
    let hashed_password := get_password_hash (uc_password user_data) in
    let db_user := mk_user (uc_name user_data) (uc_email user_data)
                           (uc_role user_data) (uc_is_active user_data)
                           hashed_password in
    let new_id := next_id (users session) in
    inr (with_users (<[new_id := db_user]> (users session)) session,
         (new_id, db_user)).

(** [authenticate_user] *)
Definition authenticate_user (verify_password : string -> string -> bool)
    (session : Store) (email password : string) : option User :=
  match head (users_by_email email session) with
  | None => None
  | Some (_, user) =>
      if negb (verify_password password (hashed_password user)) then None
      else if negb (is_active user) then None
      else Some user
  end.

(** [POST /login] *)
Definition login (verify_password : string -> string -> bool)
    (email password : string) (session : Store) : AccountError + User :=
  match authenticate_user verify_password session email password with
  | None => inl (AccountHTTP 401 IncorrectEmailOrPassword)
  | Some user => inr user
  end.

Definition set_is_active (a : bool) (u : User) : User :=
  mk_user (user_name u) (user_email u) (user_role u) a (hashed_password u).

(** [GET /users/{id}] *)
Definition get_user (uid : Z) (session : Store) : Result User :=
  or_raise (users session !! uid) (HTTPException 404 UserNotFound).

(** [PATCH /users/{id}/deactivate] and [.../activate] *)
Definition deactivate_user (uid : Z) (session : Store) : Result (Store * unit) :=
  user ← or_raise (users session !! uid) (HTTPException 404 UserNotFound);
  mret (with_users (<[uid := set_is_active false user]> (users session)) session, tt).

Definition activate_user (uid : Z) (session : Store) : Result (Store * unit) :=
  user ← or_raise (users session !! uid) (HTTPException 404 UserNotFound);
  mret (with_users (<[uid := set_is_active true user]> (users session)) session, tt).

(** The attributes of the class [User] that can order a query, with the
    order each gives: its columns of text. *)
Definition User_order_columns : list (string * (Z * User -> Z * User -> bool)) :=
  [ ("name"%string, fun x y => String.leb (user_name (snd x)) (user_name (snd y)));
    ("email"%string, fun x y => String.leb (user_email (snd x)) (user_email (snd y))) ].

(** [User.<name>] in [order_by]: [AttributeError] when the class has no such
    attribute. *)
Definition User_order_attribute (name : string)
  : Result (Z * User -> Z * User -> bool) :=
  or_raise (snd <$> List.find (fun c => String.eqb (fst c) name) User_order_columns)
           (Unhandled (AttributeError "User" name)).

Definition UserRole_eqb (a b : UserRole) : bool :=
  match a, b with
  | ADMIN, ADMIN | LIBRARIAN, LIBRARIAN | MEMBER, MEMBER => true
  | _, _ => false
  end.

(** [GET /users]: the filters, then [order_by(User.full_name)]. *)
Definition list_users (role : option UserRole) (active : option bool)
    (limit offset : Z) (session : Store) : Result (list (Z * User)) :=
  raise_if (negb (check_number list_limit_query (inject_Z limit)))
           (RequestValidationError "limit");;
  raise_if (negb (check_number offset_query (inject_Z offset)))
           (RequestValidationError "offset");;
  let query :=
    select_where
      (fun u =>
         from_option (fun r => UserRole_eqb (user_role u) r) true role
         && from_option (fun a => Bool.eqb (is_active u) a) true active)
      (users session) in
  by_full_name ← User_order_attribute "full_name";
  mret (offset_limit offset limit (order_by by_full_name query)).

(** No two users share an email. *)
Definition emails_unique (st : Store) : Prop :=
  forall i j u v, users st !! i = Some u -> users st !! j = Some v ->
    user_email u = user_email v -> i = j.

(** ** Invariants of the store *)

(** Every ACTIVE record references a book that is in the store and marked
    borrowed. *)
Definition active_books_borrowed (st : Store) : Prop :=
  forall k r, borrow_records st !! k = Some r -> returned_date r = None ->
    exists b, books st !! book_id r = Some b /\ status b = BORROWED.

(** No book has two ACTIVE records. *)
Definition one_active_per_book (st : Store) : Prop :=
  forall k k' r r',
    borrow_records st !! k = Some r -> borrow_records st !! k' = Some r' ->
    returned_date r = None -> returned_date r' = None ->
    book_id r = book_id r' -> k = k'.

Definition loans_consistent (st : Store) : Prop :=
  active_books_borrowed st /\ one_active_per_book st.

(** No user holds more ACTIVE records than the limit. *)
Definition within_limit (st : Store) : Prop :=
  forall uid,
    (List.length (select_where (active_of_user uid) (borrow_records st)) <= 5)%nat.

(** ** Further sample data *)

Module Cases.

(** The store after Bruno's plain borrow of "Emma". *)
Definition after_plain_borrow : Store :=
  created_store Sample.clk Sample.plain_borrow Sample.library Sample.emma.

(** A later request: three days after [Sample.day0]. *)
Definition later : Clock :=
  mk_clock (Sample.day0 + 3)
           (fun k => mk_datetime (Sample.day0 + 3) (50000000000 + Z.of_nat k)).


(** A second loan, Bruno's, of "Emma", due in four days. *)
Definition second_loan : BorrowRecord :=
  mk_borrow 2 11 (mk_datetime 738940 0) (Sample.day0 + 4) None None None.

Definition two_loans : Store :=
  with_borrow_records (<[101 := second_loan]> (borrow_records Sample.library))
                      Sample.library.

Definition everything : BorrowListParams := mk_list_params None None None None 20 0.

(** A registration, and the credential functions of a test double. *)
Definition carla : UserCreateSchema :=
  mk_user_create "Carla Rossi" "carla@example.org" MEMBER true "s3cretpass".
Definition toy_hash (pw : string) : string := "h:" +:+ pw.
Definition toy_verify (pw hashed : string) : bool := String.eqb (toy_hash pw) hashed.

(** Two blocks of decimal digits, 0 to 9 and the Arabic-Indic digits
    U+0660 to U+0669, for the runs below; the code points of "s3cretpass",
    and those of "password" followed by the Arabic-Indic digit three. *)
Definition two_digit_blocks (c : N) : bool :=
  (((48 <=? c) && (c <=? 57)) || ((1632 <=? c) && (c <=? 1641)))%N.
Definition secret_points : list N :=
  [115; 51; 99; 114; 101; 116; 112; 97; 115; 115]%N.
Definition arabic_digit_points : list N :=
  [112; 97; 115; 115; 119; 111; 114; 100; 1635]%N.

(** An email check for the runs below: the address holds an at sign. *)
Definition has_at (s : string) : bool :=
  existsb (Ascii.eqb "@"%char) (list_ascii_of_string s).

(** Alice asks for "Emma" while her loan of "Dune" is overdue. *)
Definition alice_borrow : BorrowRecordCreateSchema :=
  mk_create (utcnow Sample.clk 0) (Sample.day0 + 14) None None None 1 11.


(** A create body with the dates of [Sample.late_loan] and a return before
    the loan began. *)
Definition early_return_body : BorrowCreateBody :=
  mk_create_body (Some (borrowed_date Sample.late_loan))
                 (due_date Sample.late_loan) (Some Sample.early) None None 2 11.

(** A body that nulls [returned_date]. *)
Definition reopen_patch : BorrowRecordUpdateSchema :=
  mk_update None (Some None) None None.

End Cases.
(** * Properties *)

(** ** Helper lemmas: tables, queries, the result monad *)

Lemma BookStatus_eqb_eq a b : BookStatus_eqb a b = true <-> a = b.
Proof. destruct a, b; simpl; split; congruence. Qed.

Lemma BookStatus_eqb_neq a b : BookStatus_eqb a b = false <-> a <> b.
Proof. destruct a, b; simpl; split; congruence. Qed.

Lemma select_where_In {A} (p : A -> bool) (tbl : gmap Z A) k a :
  In (k, a) (select_where p tbl) <-> tbl !! k = Some a /\ p a = true.
Proof.
  unfold select_where. rewrite List.filter_In. simpl.
  rewrite <- list_elem_of_In, elem_of_map_to_list. reflexivity.
Qed.

Lemma nonempty_false {A} (l : list A) : nonempty l = false <-> l = [].
Proof. destruct l; simpl; split; congruence. Qed.

Lemma select_where_nil {A} (p : A -> bool) (tbl : gmap Z A) :
  select_where p tbl = [] <->
  forall k a, tbl !! k = Some a -> p a = false.
Proof.
  split.
  - intros Hnil k a Hk. destruct (p a) eqn:Hp; [|reflexivity].
    assert (Hin : In (k, a) (select_where p tbl)) by (apply select_where_In; auto).
    rewrite Hnil in Hin. destruct Hin.
  - intros Hall. destruct (select_where p tbl) as [|[k a] l] eqn:Hsel; [reflexivity|].
    assert (Hin : In (k, a) (select_where p tbl)) by (rewrite Hsel; left; reflexivity).
    apply select_where_In in Hin as [Hk Hp].
    rewrite (Hall k a Hk) in Hp. discriminate.
Qed.

Lemma foldr_max_ge (l : list Z) k : In k l -> k <= foldr Z.max 0 l.
Proof.
  induction l as [|x l IH]; simpl; [intros []|].
  intros [->|Hin]; [lia|]. specialize (IH Hin). lia.
Qed.

Lemma next_id_fresh {A} (tbl : gmap Z A) : tbl !! next_id tbl = None.
Proof.
  destruct (tbl !! next_id tbl) as [a|] eqn:Hk; [exfalso|reflexivity].
  apply elem_of_map_to_list, list_elem_of_In in Hk.
  apply (in_map fst) in Hk. simpl in Hk.
  apply foldr_max_ge in Hk. unfold next_id in Hk. lia.
Qed.

(** ** Queries over a table that one write changed *)

Lemma filter_Permutation_bool {A} (f : A -> bool) (l l' : list A) :
  l ≡ₚ l' -> List.filter f l ≡ₚ List.filter f l'.
Proof.
  induction 1 as [|x l l' _ IH|x y l|l1 l2 l3 _ IH1 _ IH2]; simpl.
  - reflexivity.
  - destruct (f x); [constructor|]; exact IH.
  - destruct (f x), (f y); try reflexivity. constructor.
  - etransitivity; eassumption.
Qed.

(** Inserting a row under a fresh key adds it to the selection when it
    matches the filter, and changes nothing else. *)
Lemma select_where_insert_fresh {A} (p : A -> bool) (tbl : gmap Z A) k x :
  tbl !! k = None ->
  select_where p (<[k := x]> tbl)
  ≡ₚ (if p x then [(k, x)] else []) ++ select_where p tbl.
Proof.
  intros Hk. unfold select_where.
  rewrite (filter_Permutation_bool _ _ _ (map_to_list_insert tbl k x Hk)).
  simpl. destruct (p x); reflexivity.
Qed.

Lemma select_where_delete {A} (p : A -> bool) (tbl : gmap Z A) k x :
  tbl !! k = Some x ->
  select_where p tbl
  ≡ₚ (if p x then [(k, x)] else []) ++ select_where p (delete k tbl).
Proof.
  intros Hk. unfold select_where.
  rewrite <- (filter_Permutation_bool _ _ _ (map_to_list_delete tbl k x Hk)).
  simpl. destruct (p x); reflexivity.
Qed.

(** Overwriting a row swaps its contribution to the selection. *)
Lemma select_where_overwrite {A} (p : A -> bool) (tbl : gmap Z A) k x y :
  tbl !! k = Some x ->
  select_where p (<[k := y]> tbl)
  ≡ₚ (if p y then [(k, y)] else []) ++ select_where p (delete k tbl).
Proof.
  intros Hk. rewrite <- (insert_delete_eq tbl k y).
  apply select_where_insert_fresh, lookup_delete_eq.
Qed.

Lemma select_where_overwrite_same {A} (p : A -> bool) (tbl : gmap Z A) k x y :
  tbl !! k = Some x -> p y = p x ->
  List.length (select_where p (<[k := y]> tbl)) = List.length (select_where p tbl).
Proof.
  intros Hk Hp.
  rewrite (select_where_overwrite p tbl k x y Hk), (select_where_delete p tbl k x Hk).
  rewrite Hp. destruct (p x); reflexivity.
Qed.

Lemma Permutation_nil_eq {A} (l : list A) : l ≡ₚ [] -> l = [].
Proof. intros H. apply Permutation_nil_r. exact H. Qed.

Lemma returned_not_active uid t r :
  active_of_user uid (set_returned_date (Some t) r) = false.
Proof. unfold active_of_user, is_null. simpl. apply andb_false_r. Qed.

Lemma returned_not_overdue clk uid t r :
  overdue_of_user clk uid (set_returned_date (Some t) r) = false.
Proof. unfold overdue_of_user, is_null. simpl. rewrite andb_false_r. reflexivity. Qed.

(** When the four checks pass, the create goes through. *)
Lemma create_borrow_record_passes clk p st u b :
  users st !! c_user_id p = Some u -> is_active u = true ->
  books st !! c_book_id p = Some b -> status b = AVAILABLE ->
  (List.length (active_borrows p st) < 5)%nat ->
  overdue_borrows clk p st = [] ->
  create_borrow_record clk p st
  = Ok (created_store clk p st b, (next_id (borrow_records st), BorrowRecord_of_dump p)).
Proof.
  intros Hu Hact Hb Hs Hn Ho.
  unfold create_borrow_record, active_borrows, overdue_borrows in *. unfold_result.
  rewrite Hu, Hact, Hb, Hs. simpl. unfold MAX_ACTIVE_BORROWS.
  destruct (5 <=? _) eqn:E; [apply Z.leb_le in E; lia|].
  rewrite Ho. reflexivity.
Qed.

Lemma or_raise_Some {A} (o : option A) e a : o = Some a -> or_raise o e = Ok a.
Proof. intros ->. reflexivity. Qed.

Lemma or_raise_None {A} (o : option A) e : o = None -> or_raise o e = Raise e.
Proof. intros ->. reflexivity. Qed.

(** ** Return *)

(** Once [returned_date] is set, the record is not overdue, whatever its
    due date. *)
Lemma is_overdue_after_return clk t r :
  is_overdue clk (set_returned_date (Some t) r) = false.
Proof. reflexivity. Qed.

(** The fine formula itself gives the amounts the specification lists. *)
Lemma fine_for_examples :
  Qeq (fine_for 10) (5 # 1) /\ Qeq (fine_for 100) (25 # 1) /\
  Qeq (fine_for 50) (25 # 1) /\ Qeq (fine_for 49) (49 # 2).
Proof. repeat split; vm_compute; reflexivity. Qed.

(** Returning an ACTIVE record whose book is in the store succeeds, stamps
    [returned_date], releases the book and leaves [fine_amount] as it was:
    the overdue test runs after [returned_date] has been set. *)
Lemma return_book_active clk id st r b :
  borrow_records st !! id = Some r ->
  returned_date r = None ->
  books st !! book_id r = Some b ->
  exists st' r',
    return_book clk id st = Ok (st', r') /\
    borrow_records st' !! id = Some r' /\
    returned_date r' = Some (utcnow clk 0) /\
    fine_amount r' = fine_amount r /\
    (exists b', books st' !! book_id r = Some b' /\ status b' = AVAILABLE).
Proof.
  intros Hr Hret Hb. unfold return_book. unfold_result.
  rewrite Hr, Hret. simpl. rewrite Hb.
  eexists _, _. split; [reflexivity|]. simpl.
  rewrite !lookup_insert_eq. repeat split; eauto.
Qed.

(** C1. A record ten days overdue, and one a hundred days overdue, are
    returned with [returned_date] set to the current time and with NO fine
    stored, where the specification asks for 5.00 and 25.00: [return_book]
    sets [returned_date] before it evaluates [is_overdue], which is false for
    a returned record. *)
Theorem return_book_overdue_stores_no_fine :
  (is_overdue Sample.clk Sample.late_loan = true /\
   days_overdue Sample.clk Sample.late_loan = 10 /\
   exists st' r',
     return_book Sample.clk 100 Sample.library = Ok (st', r') /\
     borrow_records st' !! 100 = Some r' /\
     returned_date r' = Some (utcnow Sample.clk 0) /\
     fine_amount r' = None) /\
  (is_overdue Sample.clk Sample.very_late_loan = true /\
   days_overdue Sample.clk Sample.very_late_loan = 100 /\
   exists st' r',
     return_book Sample.clk 100 Sample.library_100 = Ok (st', r') /\
     borrow_records st' !! 100 = Some r' /\
     returned_date r' = Some (utcnow Sample.clk 0) /\
     fine_amount r' = None).
Proof.
  split; (split; [reflexivity|split; [reflexivity|]]);
    eexists _, _; (split; [vm_compute; reflexivity|]);
    repeat split; reflexivity.
Qed.

(** ** Create *)

(** What the two queries of [create_borrow_record] select: the rows of the
    table that satisfy the filter, each once. *)
Lemma select_where_NoDup {A} (p : A -> bool) (tbl : gmap Z A) :
  List.NoDup (select_where p tbl).
Proof.
  unfold select_where. apply List.NoDup_filter.
  apply NoDup_ListNoDup, NoDup_map_to_list.
Qed.

Lemma active_of_user_spec uid r :
  active_of_user uid r = true <-> user_id r = uid /\ returned_date r = None.
Proof.
  unfold active_of_user, is_null, truthy.
  rewrite andb_true_iff, Z.eqb_eq. destruct (returned_date r); simpl; intuition congruence.
Qed.

Lemma overdue_of_user_spec clk uid r :
  overdue_of_user clk uid r = true <->
  user_id r = uid /\ returned_date r = None /\ due_date r < today clk.
Proof.
  unfold overdue_of_user, is_null, truthy.
  rewrite !andb_true_iff, Z.eqb_eq, Z.ltb_lt.
  destruct (returned_date r); simpl; intuition congruence.
Qed.

(** A successful create stores the row built from the payload, under the
    id it answers with, and marks the payload's book borrowed. *)
Lemma create_borrow_record_Ok clk p st st' id r :
  create_borrow_record clk p st = Ok (st', (id, r)) ->
  r = BorrowRecord_of_dump p /\
  borrow_records st' !! id = Some r /\
  exists b, books st' !! c_book_id p = Some b /\ status b = BORROWED.
Proof.
  unfold create_borrow_record. unfold_result.
  destruct (users st !! c_user_id p) as [u|]; [|discriminate].
  destruct (negb (is_active u)); [discriminate|].
  destruct (books st !! c_book_id p) as [b|]; [|discriminate].
  destruct (negb _); [discriminate|].
  destruct (MAX_ACTIVE_BORROWS <=? _); [discriminate|].
  destruct (nonempty _); [discriminate|].
  intros [= <- <- <-]. simpl. rewrite !lookup_insert_eq.
  split; [reflexivity|]. split; [reflexivity|]. eexists. split; reflexivity.
Qed.

(** The handler's two queries count and find what the specification's words
    say: the ACTIVE records of the user, and whether one of them is overdue. *)
Lemma select_where_size {A} (pb : A -> bool) (P : Z * A -> Prop)
    `{!forall x, Decision (P x)} (tbl : gmap Z A) :
  (forall k a, pb a = true <-> P (k, a)) ->
  List.length (select_where pb tbl) = size (filter P tbl).
Proof.
  intros Hpb. induction tbl as [|i x m Hi IH] using map_ind.
  - unfold select_where. rewrite map_to_list_empty, map_filter_empty, map_size_empty.
    reflexivity.
  - rewrite (select_where_insert_fresh pb m i x Hi), length_app, IH.
    rewrite map_filter_insert. destruct (decide (P (i, x))) as [HP|HP].
    + rewrite (proj2 (Hpb i x) HP). simpl.
      rewrite map_size_insert_None; [reflexivity|].
      apply map_lookup_filter_None. left. exact Hi.
    + destruct (pb x) eqn:E; [exfalso; apply HP, Hpb, E|]. simpl.
      rewrite (delete_id m i Hi). reflexivity.
Qed.

Lemma active_count_agrees uid st :
  List.length (select_where (active_of_user uid) (borrow_records st))
  = size (active_records uid st).
Proof.
  unfold active_records. apply select_where_size.
  intros k r. simpl. apply active_of_user_spec.
Qed.

Lemma overdue_query_empty clk uid st :
  select_where (overdue_of_user clk uid) (borrow_records st) = []
  <-> overdue_records clk uid st = ∅.
Proof.
  rewrite <- length_zero_iff_nil, <- map_size_empty_iff.
  unfold overdue_records.
  rewrite (select_where_size (overdue_of_user clk uid)
             (fun kr => user_id kr.2 = uid /\ returned_date kr.2 = None
                        /\ due_date kr.2 < today clk)); [reflexivity|].
  intros k r. simpl. apply overdue_of_user_spec.
Qed.

(** C2, as stated, fails where it says the inserted record is ACTIVE: a
    payload that passes all four checks and carries a [returned_date] is
    inserted as it is, a record that is RETURNED from the start. *)
Lemma create_borrow_record_inserts_returned_record :
  users Sample.library !! c_user_id Sample.returned_on_arrival_parsed
  = Some Sample.bruno /\
  is_active Sample.bruno = true /\
  books Sample.library !! c_book_id Sample.returned_on_arrival_parsed
  = Some Sample.emma /\
  status Sample.emma = AVAILABLE /\
  size (active_records 2 Sample.library) = 0%nat /\
  overdue_records Sample.clk 2 Sample.library = ∅ /\
  exists st' id r,
    create_borrow_record Sample.clk Sample.returned_on_arrival_parsed Sample.library
    = Ok (st', (id, r)) /\
    borrow_records st' !! id = Some r /\
    returned_date r = Some Sample.next_day /\
    returned_date r <> None.
Proof.
  split; [reflexivity|]. split; [reflexivity|]. split; [reflexivity|].
  split; [reflexivity|]. split; [vm_compute; reflexivity|].
  split; [apply map_size_empty_iff; vm_compute; reflexivity|].
  eexists _, _, _. split; [vm_compute; reflexivity|].
  split; [reflexivity|]. split; [reflexivity|discriminate].
Qed.

(** C2, amended. For a payload whose ids the store can bind (64-bit),
    [create_borrow_record] runs its checks in one fixed order and the first
    one that fails decides the response: (1) the user exists (404) and is
    active (400); (2) the book exists (404) and is available (400, with the
    current status in the detail); (3) the user has fewer than 5 ACTIVE
    records (400, limit); (4) none of the user's ACTIVE records is overdue
    (400, blocked).  A failure writes nothing.  Only when all four pass is a
    record inserted: it carries the payload's fields under a fresh id, is
    ACTIVE exactly when the payload has no [returned_date], and the book goes
    from available to borrowed with nothing else changed. *)
Theorem create_borrow_record_first_failure_wins clk p st :
  fits_int64 (c_user_id p) = true ->
  fits_int64 (c_book_id p) = true ->
  (* the order of the checks *)
  ((users st !! c_user_id p = None ->
    create_borrow_record clk p st = Raise (HTTPException 404 UserNotFound)) /\
   (forall u, users st !! c_user_id p = Some u ->
     (is_active u = false ->
      create_borrow_record clk p st = Raise (HTTPException 400 UserNotActive)) /\
     (is_active u = true ->
      (books st !! c_book_id p = None ->
       create_borrow_record clk p st = Raise (HTTPException 404 BookNotFound)) /\
      (forall b, books st !! c_book_id p = Some b ->
        (status b <> AVAILABLE ->
         create_borrow_record clk p st
         = Raise (HTTPException 400 (BookNotAvailable (status b)))) /\
        (status b = AVAILABLE ->
         ((5 <= size (active_records (c_user_id p) st))%nat ->
          create_borrow_record clk p st
          = Raise (HTTPException 400 (MaxActiveBorrows 5))) /\
         ((size (active_records (c_user_id p) st) < 5)%nat ->
          (overdue_records clk (c_user_id p) st <> ∅ ->
           create_borrow_record clk p st
           = Raise (HTTPException 400 UserHasOverdueBooks)) /\
          (overdue_records clk (c_user_id p) st = ∅ ->
           exists st' id r,
             create_borrow_record clk p st = Ok (st', (id, r))))))))) /\
  (* the error classes of the four checks *)
  (classify (HTTPException 404 UserNotFound) = NotFound /\
   classify (HTTPException 400 UserNotActive) = InvalidState /\
   classify (HTTPException 404 BookNotFound) = NotFound /\
   (forall s, classify (HTTPException 400 (BookNotAvailable s)) = Conflict) /\
   classify (HTTPException 400 (MaxActiveBorrows 5)) = LimitExceeded /\
   classify (HTTPException 400 UserHasOverdueBooks) = Blocked) /\
  (* no write on failure *)
  (forall e, create_borrow_record clk p st = Raise e ->
     store_after st (create_borrow_record clk p st) = st) /\
  (* the writes happen only when all four checks pass, and what they are *)
  (forall st' id r, create_borrow_record clk p st = Ok (st', (id, r)) ->
     exists u b,
       users st !! c_user_id p = Some u /\ is_active u = true /\
       books st !! c_book_id p = Some b /\ status b = AVAILABLE /\
       (size (active_records (c_user_id p) st) < 5)%nat /\
       overdue_records clk (c_user_id p) st = ∅ /\
       (* the record: new, the payload's, ACTIVE unless the payload says otherwise *)
       borrow_records st !! id = None /\
       borrow_records st' = <[id := r]> (borrow_records st) /\
       user_id r = c_user_id p /\ book_id r = c_book_id p /\
       borrowed_date r = c_borrowed_date p /\ due_date r = c_due_date p /\
       returned_date r = c_returned_date p /\
       fine_amount r = c_fine_amount p /\ notes r = c_notes p /\
       (returned_date r = None <-> c_returned_date p = None) /\
       (* the book: from available to borrowed *)
       (exists b', books st' = <[c_book_id p := b']> (books st) /\
                   status b' = BORROWED /\ title b' = title b /\
                   pages b' = pages b /\ genre b' = genre b) /\
       users st' = users st).
Proof.
  intros _ _.
  split; [|split; [|split]].
  - unfold create_borrow_record. unfold_result.
    split; [intros ->; reflexivity|].
    intros u ->. split; [intros ->; reflexivity|]. intros ->. simpl.
    split; [intros ->; reflexivity|].
    intros b ->. split.
    + intros Hs. apply BookStatus_eqb_neq in Hs. rewrite Hs. reflexivity.
    + intros Hs. rewrite Hs. simpl. unfold MAX_ACTIVE_BORROWS.
      rewrite active_count_agrees. split.
      * intros Hn. destruct (5 <=? _) eqn:E; [reflexivity|]. apply Z.leb_gt in E. lia.
      * intros Hn. destruct (5 <=? _) eqn:E; [apply Z.leb_le in E; lia|].
        split.
        -- intros Ho. destruct (nonempty _) eqn:E2; [reflexivity|].
           apply nonempty_false, overdue_query_empty in E2. contradiction.
        -- intros Ho. apply overdue_query_empty in Ho. rewrite Ho. simpl.
           eexists _, _, _. reflexivity.
  - repeat split; reflexivity.
  - intros e ->. reflexivity.
  - intros st' id r. unfold create_borrow_record. unfold_result.
    destruct (users st !! c_user_id p) as [u|] eqn:Hu; [|discriminate].
    destruct (is_active u) eqn:Hact; [|discriminate]. simpl.
    destruct (books st !! c_book_id p) as [b|] eqn:Hb; [|discriminate].
    destruct (BookStatus_eqb (status b) AVAILABLE) eqn:Hs; [|discriminate]. simpl.
    apply BookStatus_eqb_eq in Hs.
    destruct (MAX_ACTIVE_BORROWS <=? _) eqn:Hn; [discriminate|].
    apply Z.leb_gt in Hn. unfold MAX_ACTIVE_BORROWS in Hn.
    rewrite active_count_agrees in Hn.
    destruct (nonempty _) eqn:Ho; [discriminate|].
    apply nonempty_false, overdue_query_empty in Ho.
    intros [= <- <- <-]. exists u, b. simpl.
    repeat match goal with
           | |- _ /\ _ => split
           | |- _ <-> _ => split
           end;
      try first [reflexivity | assumption | lia | apply next_id_fresh
                | (intros; assumption)].
    eexists. repeat split.
Qed.

(** Two runs on the sample library: Alice, whose loan is overdue, passes the
    first three checks and is blocked by the fourth; Bruno passes all four. *)
Lemma create_borrow_record_first_failure_wins_witness :
  (fits_int64 (c_user_id Cases.alice_borrow) = true /\
   fits_int64 (c_book_id Cases.alice_borrow) = true /\
   users Sample.library !! 1 = Some Sample.alice /\
   is_active Sample.alice = true /\
   books Sample.library !! 11 = Some Sample.emma /\
   status Sample.emma = AVAILABLE /\
   (size (active_records 1 Sample.library) < 5)%nat /\
   overdue_records Sample.clk 1 Sample.library <> ∅ /\
   create_borrow_record Sample.clk Cases.alice_borrow Sample.library
   = Raise (HTTPException 400 UserHasOverdueBooks)) /\
  (fits_int64 (c_user_id Sample.plain_borrow) = true /\
   fits_int64 (c_book_id Sample.plain_borrow) = true /\
   users Sample.library !! 2 = Some Sample.bruno /\
   is_active Sample.bruno = true /\
   (size (active_records 2 Sample.library) < 5)%nat /\
   overdue_records Sample.clk 2 Sample.library = ∅ /\
   exists st' id r,
     create_borrow_record Sample.clk Sample.plain_borrow Sample.library
     = Ok (st', (id, r))).
Proof.
  split.
  - assert (Hu : users Sample.library !! c_user_id Cases.alice_borrow
                 = Some Sample.alice) by reflexivity.
    assert (Hb : books Sample.library !! c_book_id Cases.alice_borrow
                 = Some Sample.emma) by reflexivity.
    assert (Hn : (size (active_records (c_user_id Cases.alice_borrow)
                          Sample.library) < 5)%nat) by (vm_compute; lia).
    assert (Ho : overdue_records Sample.clk (c_user_id Cases.alice_borrow)
                   Sample.library <> ∅)
      by (apply map_size_non_empty_iff; vm_compute; discriminate).
    refine (conj eq_refl (conj eq_refl (conj Hu (conj eq_refl
             (conj Hb (conj eq_refl (conj Hn (conj Ho _)))))))).
    destruct (create_borrow_record_first_failure_wins Sample.clk Cases.alice_borrow
                Sample.library eq_refl eq_refl) as [[_ Hcases] _].
    destruct (Hcases _ Hu) as [_ Hactive].
    destruct (Hactive eq_refl) as [_ Hbook].
    destruct (Hbook _ Hb) as [_ Havail].
    destruct (Havail eq_refl) as [_ Hlimit].
    destruct (Hlimit Hn) as [Hblocked _].
    exact (Hblocked Ho).
  - assert (Hu : users Sample.library !! c_user_id Sample.plain_borrow
                 = Some Sample.bruno) by reflexivity.
    assert (Hb : books Sample.library !! c_book_id Sample.plain_borrow
                 = Some Sample.emma) by reflexivity.
    assert (Hn : (size (active_records (c_user_id Sample.plain_borrow)
                          Sample.library) < 5)%nat) by (vm_compute; lia).
    assert (Ho : overdue_records Sample.clk (c_user_id Sample.plain_borrow)
                   Sample.library = ∅)
      by (apply map_size_empty_iff; vm_compute; reflexivity).
    refine (conj eq_refl (conj eq_refl (conj Hu (conj eq_refl
             (conj Hn (conj Ho _)))))).
    destruct (create_borrow_record_first_failure_wins Sample.clk Sample.plain_borrow
                Sample.library eq_refl eq_refl) as [[_ Hcases] _].
    destruct (Hcases _ Hu) as [_ Hactive].
    destruct (Hactive eq_refl) as [_ Hbook].
    destruct (Hbook _ Hb) as [_ Havail].
    destruct (Havail eq_refl) as [_ Hlimit].
    destruct (Hlimit Hn) as [_ Hclear].
    exact (Hclear Ho).
Defined.

(** ** Delete *)

(** C3. Deleting an existing record: if it is ACTIVE, the first write sets
    the referenced book to available while the record is still in the table,
    and the second write removes the record; if it is RETURNED, only the
    record is removed and the table of books is left as it was. *)
Theorem delete_borrow_record_releases_book clk id st r :
  borrow_records st !! id = Some r ->
  (returned_date r = None ->
   forall b, books st !! book_id r = Some b ->
   exists st1,
     release_book clk (book_id r) st = Ok st1 /\
     borrow_records st1 !! id = Some r /\
     (exists b1, books st1 !! book_id r = Some b1 /\ status b1 = AVAILABLE) /\
     delete_borrow_record clk id st = Ok (remove_record id st1, tt) /\
     borrow_records (remove_record id st1) !! id = None /\
     books (remove_record id st1) = books st1) /\
  (forall t, returned_date r = Some t ->
   delete_borrow_record clk id st = Ok (remove_record id st, tt) /\
   borrow_records (remove_record id st) !! id = None /\
   books (remove_record id st) = books st).
Proof.
  intros Hr. split.
  - intros Hret b Hb. unfold delete_borrow_record, release_book. unfold_result.
    rewrite Hr, Hret, Hb. simpl. eexists. split; [reflexivity|]. simpl.
    split; [exact Hr|]. split.
    + eexists. rewrite lookup_insert_eq. split; reflexivity.
    + split; [reflexivity|]. split; [apply lookup_delete_eq|reflexivity].
  - intros t Hret. unfold delete_borrow_record. unfold_result.
    rewrite Hr, Hret. simpl. split; [reflexivity|].
    split; [apply lookup_delete_eq|reflexivity].
Qed.

Lemma delete_borrow_record_releases_book_witness :
  (borrow_records Sample.library !! 100 = Some Sample.late_loan /\
   returned_date Sample.late_loan = None /\
   books Sample.library !! 10 = Some Sample.dune /\
   status Sample.dune = BORROWED /\
   exists st1,
     release_book Sample.clk 10 Sample.library = Ok st1 /\
     (exists b1, books st1 !! 10 = Some b1 /\ status b1 = AVAILABLE) /\
     delete_borrow_record Sample.clk 100 Sample.library
     = Ok (remove_record 100 st1, tt)) /\
  (borrow_records Sample.library_closed !! 100 = Some Sample.closed_loan /\
   returned_date Sample.closed_loan = Some (mk_datetime 738923 0) /\
   delete_borrow_record Sample.clk 100 Sample.library_closed
   = Ok (remove_record 100 Sample.library_closed, tt) /\
   books (remove_record 100 Sample.library_closed) = books Sample.library_closed).
Proof.
  split.
  - assert (Hr : borrow_records Sample.library !! 100 = Some Sample.late_loan)
      by reflexivity.
    assert (Hb : books Sample.library !! book_id Sample.late_loan = Some Sample.dune)
      by reflexivity.
    refine (conj Hr (conj eq_refl (conj Hb (conj eq_refl _)))).
    destruct (delete_borrow_record_releases_book Sample.clk 100 Sample.library
                Sample.late_loan Hr) as [Hactive _].
    destruct (Hactive eq_refl _ Hb) as (st1 & H1 & _ & H2 & H3 & _).
    exists st1. exact (conj H1 (conj H2 H3)).
  - assert (Hr : borrow_records Sample.library_closed !! 100 = Some Sample.closed_loan)
      by reflexivity.
    refine (conj Hr (conj eq_refl _)).
    destruct (delete_borrow_record_releases_book Sample.clk 100 Sample.library_closed
                Sample.closed_loan Hr) as [_ Hreturned].
    destruct (Hreturned _ eq_refl) as (H1 & _ & H2).
    exact (conj H1 H2).
Defined.

(** ** Extend *)

Lemma Qle_bool_inject_Z a b : Qle_bool (inject_Z a) (inject_Z b) = (a <=? b).
Proof.
  destruct (a <=? b) eqn:E.
  - apply Qle_bool_iff. rewrite <- Zle_Qle. apply Z.leb_le, E.
  - destruct (Qle_bool _ _) eqn:E2; [|reflexivity].
    apply Qle_bool_iff in E2. rewrite <- Zle_Qle in E2.
    apply Z.leb_gt in E. lia.
Qed.

(** The query parameter is accepted exactly on 1..30. *)
Lemma extend_days_accepted n :
  check_number extend_days_query (inject_Z n) = true <-> 1 <= n <= 30.
Proof.
  unfold check_number, extend_days_query. cbn -[Qle_bool inject_Z].
  rewrite !Qle_bool_inject_Z, !andb_true_iff, !Z.leb_le. intuition.
Qed.

Lemma add_days_Some d n :
  valid (d + n) = true -> add_days d n = Some (d + n).
Proof.
  unfold valid, add_days, MINORDINAL. rewrite andb_true_iff, Z.leb_le, Z.leb_le.
  intros [H1 H2]. simpl.
  destruct (0 <? d + n) eqn:E1; [|apply Z.ltb_ge in E1; lia].
  destruct (d + n <=? MAXORDINAL) eqn:E2; [reflexivity|apply Z.leb_gt in E2; lia].
Qed.

Lemma add_days_None d n :
  MAXORDINAL < d + n -> add_days d n = None.
Proof.
  unfold add_days. intros H. simpl.
  destruct (d + n <=? MAXORDINAL) eqn:E2; [apply Z.leb_le in E2; lia|].
  rewrite andb_false_r. reflexivity.
Qed.

(** C4, as stated, fails on a due date within thirty days of the last date a
    [date] can hold: an ACTIVE record due on 9999-12-28 is not shifted by a
    7-day extension, the date addition overflows. *)
Lemma extend_due_date_past_last_date :
  borrow_records Sample.library_far !! 100 = Some Sample.far_loan /\
  returned_date Sample.far_loan = None /\
  isoformat (due_date Sample.far_loan) = "9999-12-28"%string /\
  1 <= 7 <= 30 /\
  extend_due_date Sample.clk 100 7 Sample.library_far
  = Raise (Unhandled OverflowError) /\
  ~ (exists st' r',
       extend_due_date Sample.clk 100 7 Sample.library_far = Ok (st', r') /\
       due_date r' = due_date Sample.far_loan + 7).
Proof.
  assert (H : extend_due_date Sample.clk 100 7 Sample.library_far
              = Raise (Unhandled OverflowError)) by (vm_compute; reflexivity).
  repeat split; try reflexivity; try lia; try exact H.
  intros (st' & r' & Hok & _). rewrite H in Hok. discriminate.
Qed.

(** C4, amended. An extension by [n] days, 1 <= n <= 30, of an existing
    record: a RETURNED record gives 400 (Conflict) and nothing is written; an
    ACTIVE record whose due date plus [n] days is still a date gets exactly
    that due date, with [fine_amount] and [returned_date] as they were; past
    the last date the addition raises and nothing is written. *)
Theorem extend_due_date_shifts_due_date clk id n st r :
  1 <= n <= 30 ->
  borrow_records st !! id = Some r ->
  (forall t, returned_date r = Some t ->
     extend_due_date clk id n st = Raise (HTTPException 400 CannotExtendReturned) /\
     classify (HTTPException 400 CannotExtendReturned) = Conflict /\
     store_after st (extend_due_date clk id n st) = st) /\
  (returned_date r = None -> valid (due_date r + n) = true ->
     exists st' r',
       extend_due_date clk id n st = Ok (st', r') /\
       borrow_records st' !! id = Some r' /\
       due_date r' = due_date r + n /\
       fine_amount r' = fine_amount r /\
       returned_date r' = None /\
       books st' = books st) /\
  (returned_date r = None -> MAXORDINAL < due_date r + n ->
     extend_due_date clk id n st = Raise (Unhandled OverflowError) /\
     store_after st (extend_due_date clk id n st) = st).
Proof.
  intros Hn Hr. apply extend_days_accepted in Hn.
  unfold extend_due_date. unfold_result. rewrite Hn, Hr. simpl.
  split; [|split].
  - intros t ->. simpl. repeat split.
  - intros Hret Hv. rewrite Hret, (add_days_Some _ _ Hv). simpl.
    eexists _, _. split; [reflexivity|]. simpl.
    rewrite lookup_insert_eq. repeat split; assumption.
  - intros Hret Hover. rewrite Hret, (add_days_None _ _ Hover). simpl.
    split; reflexivity.
Qed.

Lemma extend_due_date_shifts_due_date_witness :
  1 <= 7 <= 30 /\
  borrow_records Sample.library !! 100 = Some Sample.late_loan /\
  returned_date Sample.late_loan = None /\
  valid (due_date Sample.late_loan + 7) = true /\
  exists st' r',
    extend_due_date Sample.clk 100 7 Sample.library = Ok (st', r') /\
    due_date r' = due_date Sample.late_loan + 7 /\
    fine_amount r' = fine_amount Sample.late_loan.
Proof.
  assert (Hn : 1 <= 7 <= 30) by lia.
  assert (Hr : borrow_records Sample.library !! 100 = Some Sample.late_loan)
    by reflexivity.
  refine (conj Hn (conj Hr (conj eq_refl (conj eq_refl _)))).
  destruct (extend_due_date_shifts_due_date Sample.clk 100 7 Sample.library
              Sample.late_loan Hn Hr) as (_ & Hactive & _).
  destruct (Hactive eq_refl eq_refl) as (st' & r' & H1 & _ & H2 & H3 & _).
  exists st', r'. exact (conj H1 (conj H2 H3)).
Defined.

(** C5, as stated, fails: the note of the extension replaces the notes the
    record had; nothing of "Handle with care" is left after the extension. *)
Lemma extend_due_date_overwrites_notes :
  notes Sample.late_loan = Some "Handle with care"%string /\
  exists st' r',
    extend_due_date Sample.clk 100 7 Sample.library = Ok (st', r') /\
    notes r' = Some "Extended by 7 days on 2024-03-01"%string /\
    ~ (exists audit, notes r' = Some ("Handle with care" +:+ audit)).
Proof.
  split; [reflexivity|]. eexists _, _.
  split; [vm_compute; reflexivity|]. split; [reflexivity|].
  intros [audit H]. simpl in H. discriminate H.
Qed.

(** C5, amended. Every successful extension sets the record's notes to the
    audit note "Extended by <n> days on <today, as YYYY-MM-DD>", whatever the
    notes were, and that record is the one stored. *)
Theorem extend_due_date_sets_audit_note clk id n st st' r' :
  extend_due_date clk id n st = Ok (st', r') ->
  notes r' = Some ("Extended by " +:+ pretty n +:+ " days on "
                   +:+ isoformat (today clk)) /\
  borrow_records st' !! id = Some r'.
Proof.
  unfold extend_due_date. unfold_result.
  destruct (negb _); [discriminate|].
  destruct (borrow_records st !! id) as [r|]; [|discriminate].
  destruct (truthy _); [discriminate|]. simpl.
  destruct (add_days _ _) as [d|]; [|discriminate].
  intros [= <- <-]. simpl. rewrite lookup_insert_eq. split; reflexivity.
Qed.

Lemma extend_due_date_sets_audit_note_witness :
  exists st' r',
    extend_due_date Sample.clk 100 7 Sample.library = Ok (st', r') /\
    notes r' = Some "Extended by 7 days on 2024-03-01"%string.
Proof.
  destruct (extend_due_date Sample.clk 100 7 Sample.library) as [[st' r']|e] eqn:H;
    [|vm_compute in H; discriminate H].
  exists st', r'. split; [reflexivity|].
  exact (proj1 (extend_due_date_sets_audit_note Sample.clk 100 7 Sample.library
                  st' r' H)).
Defined.

(** ** Payload validation *)

Lemma dt_ltb_lt a b : dt_ltb a b = true <-> dt_lt a b.
Proof.
  unfold dt_ltb, dt_lt.
  rewrite orb_true_iff, andb_true_iff, !Z.ltb_lt, Z.eqb_eq. reflexivity.
Qed.

(** What the update route does with a return dated before the loan began:
    the handler stores it, and the response, rendered from the stored row,
    is refused by the read schema - a 500 after the commit. *)
Lemma patch_endpoint_early_return email_ok id st r t :
  fits_int64 id = true ->
  borrow_records st !! id = Some r ->
  dt_date (borrowed_date r) < due_date r ->
  dt_lt t (borrowed_date r) ->
  exists st',
    patch_endpoint email_ok id (mk_update None (Some (Some t)) None None) st
    = mk_response st' (ResponseInvalid "returned_date") /\
    borrow_records st' !! id = Some (set_returned_date (Some t) r).
Proof.
  intros Hid Hr Hdue Hlt.
  unfold patch_endpoint, parse_borrow_update, update_borrow_record, respond.
  unfold_result. simpl. rewrite Hid, Hr. simpl.
  unfold read_schema_error, validate_due_date, validate_returned_date. simpl.
  apply Z.leb_gt in Hdue. rewrite Hdue. simpl.
  apply dt_ltb_lt in Hlt. rewrite Hlt. simpl.
  eexists. split; [reflexivity|]. simpl. apply lookup_insert_eq.
Qed.

(** C6. The update route does not check a [returned_date] against the
    record's [borrowed_date] before it writes: asked to set the return of a
    loan that began on 2024-02-05 to 2024-01-15, it commits that value and
    then answers 500, because the response schema - which carries the very
    validator the claim speaks of - refuses the row it has just stored.  The
    create route, given the same dates, answers 422 and writes nothing. *)
Theorem patch_endpoint_commits_early_return :
  borrow_records Sample.library !! 100 = Some Sample.late_loan /\
  isoformat (dt_date (borrowed_date Sample.late_loan)) = "2024-02-05"%string /\
  isoformat (dt_date Sample.early) = "2024-01-15"%string /\
  dt_lt Sample.early (borrowed_date Sample.late_loan) /\
  (forall email_ok, exists st',
     patch_endpoint email_ok 100 Sample.early_return_patch Sample.library
     = mk_response st' (ResponseInvalid "returned_date") /\
     outcome_status (outcome (patch_endpoint email_ok 100 Sample.early_return_patch
                                Sample.library)) = 500 /\
     borrow_records st' !! 100
     = Some (set_returned_date (Some Sample.early) Sample.late_loan) /\
     borrow_records st' <> borrow_records Sample.library) /\
  (forall clk,
     post_borrow_record clk Cases.early_return_body Sample.library
     = Raise (RequestValidationError "returned_date") /\
     store_after Sample.library
       (post_borrow_record clk Cases.early_return_body Sample.library)
     = Sample.library).
Proof.
  split; [reflexivity|]. split; [vm_compute; reflexivity|].
  split; [vm_compute; reflexivity|]. split; [left; vm_compute; reflexivity|].
  split.
  - intros email_ok.
    destruct (patch_endpoint_early_return email_ok 100 Sample.library
                Sample.late_loan Sample.early) as (st' & Hresp & Hrow);
      [reflexivity|reflexivity|vm_compute; reflexivity|left; vm_compute; reflexivity|].
    exists st'. change Sample.early_return_patch
      with (mk_update None (Some (Some Sample.early)) None None).
    rewrite Hresp. split; [reflexivity|]. split; [reflexivity|].
    split; [exact Hrow|].
    intros Heq. rewrite Heq in Hrow. vm_compute in Hrow. discriminate Hrow.
  - intros clk. split; reflexivity.
Qed.

(** ** Deleting a user *)

(** [BorrowRecord] is not among the names [routes/users.py] binds. *)
Lemma BorrowRecord_unbound :
  load_global users_py_globals "BorrowRecord"
  = Raise (Unhandled (NameError "BorrowRecord")).
Proof. reflexivity. Qed.

(** For every user in the store, [delete_user] stops at the query for the
    user's active borrows. *)
Lemma delete_user_existing uid st u :
  users st !! uid = Some u ->
  delete_user uid st = Raise (Unhandled (NameError "BorrowRecord")).
Proof.
  intros Hu. unfold delete_user, delete_user_in. unfold_result.
  rewrite Hu. reflexivity.
Qed.

(** In a namespace that binds [BorrowRecord], the check the handler spells
    out blocks the deletion of a user with an unreturned record. *)
Lemma delete_user_in_scope_blocks globals uid st u k r :
  In "BorrowRecord"%string globals ->
  users st !! uid = Some u ->
  borrow_records st !! k = Some r -> user_id r = uid -> returned_date r = None ->
  delete_user_in globals uid st
  = Raise (HTTPException 400 CannotDeleteUserWithActiveBorrows).
Proof.
  intros Hin Hu Hk Huid Hret. unfold delete_user_in, load_global. unfold_result.
  rewrite Hu.
  assert (Hb : existsb (String.eqb "BorrowRecord") globals = true).
  { apply existsb_exists. exists "BorrowRecord"%string. split; [exact Hin|].
    apply String.eqb_refl. }
  rewrite Hb. simpl.
  assert (Hsel : In (k, r) (select_where (active_of_user uid) (borrow_records st))).
  { apply select_where_In. split; [exact Hk|]. apply active_of_user_spec. auto. }
  destruct (select_where _ _); [destruct Hsel|]. reflexivity.
Qed.

(** C7. Deleting an existing user who owns no unreturned record does not
    delete the user: the handler raises [NameError] (a 500, outside the
    error classes of the specification) and the user stays.  Deleting one
    who owns an unreturned record fails the same way, not with the 400 the
    handler spells out. *)
Theorem delete_user_raises_NameError :
  (users Sample.library !! 2 = Some Sample.bruno /\
   select_where (active_of_user 2) (borrow_records Sample.library) = [] /\
   delete_user 2 Sample.library = Raise (Unhandled (NameError "BorrowRecord")) /\
   users (store_after Sample.library (delete_user 2 Sample.library)) !! 2
   = Some Sample.bruno) /\
  (users Sample.library !! 1 = Some Sample.alice /\
   select_where (active_of_user 1) (borrow_records Sample.library)
   = [(100, Sample.late_loan)] /\
   delete_user 1 Sample.library = Raise (Unhandled (NameError "BorrowRecord"))) /\
  response_status (Unhandled (NameError "BorrowRecord")) = 500 /\
  classify (Unhandled (NameError "BorrowRecord")) = InternalFailure.
Proof.
  repeat split; vm_compute; reflexivity.
Qed.

(** ** Book creation payloads *)

Lemma validate_title_iff s :
  validate_title s = true <-> (2 <= String.length s <= 100)%nat.
Proof.
  unfold validate_title, check_str, BookSchema.title_field.
  cbn -[Z.of_nat String.length Z.leb].
  rewrite !andb_true_iff, !Z.leb_le. lia.
Qed.

Lemma validate_author_ids_iff l :
  validate_author_ids l = true <-> l <> [].
Proof.
  unfold validate_author_ids, check_list, author_ids_field.
  destruct l as [|a l]; cbn -[Z.of_nat Z.leb].
  - split; [discriminate|congruence].
  - rewrite andb_true_iff, Z.leb_le. split; [discriminate|]. intros _. split; [lia|reflexivity].
Qed.

(** [gte] and [lte] are not constraint keywords: the [pages] field of a
    creation payload accepts every integer. *)
Lemma validate_pages_any n : validate_pages n = true.
Proof. reflexivity. Qed.

(** The update schema spells the bounds [gt] and [le], and they bind. *)
Lemma update_pages_bounded n :
  check_number BookUpdateSchema.pages_field (inject_Z n) = true <-> 0 < n <= 10000.
Proof.
  unfold check_number, BookUpdateSchema.pages_field. cbn -[Qle_bool inject_Z].
  rewrite !Qle_bool_inject_Z, !andb_true_iff, negb_true_iff, Z.leb_gt, Z.leb_le.
  intuition.
Qed.

(** C8, as stated, fails on titles of 101 to 200 characters: a title of 150
    characters does not pass the title validation of a creation payload. *)
Lemma validate_title_rejects_150_chars :
  String.length Sample.long_title = 150%nat /\
  (2 <= String.length Sample.long_title <= 200)%nat /\
  validate_title Sample.long_title = false.
Proof.
  split; [vm_compute; reflexivity|]. split; [vm_compute; lia|].
  vm_compute; reflexivity.
Qed.

(** C8, amended. On a Book creation payload the title passes exactly when
    it has 2 to 100 characters, the list of author ids passes exactly when it
    is not empty, and a payload that validates has both. *)
Theorem book_create_title_and_authors b :
  (validate_title (bc_title b) = true
   <-> (2 <= String.length (bc_title b) <= 100)%nat) /\
  (validate_author_ids (bc_author_ids b) = true <-> bc_author_ids b <> []) /\
  (validate_book_create b = true ->
   (2 <= String.length (bc_title b) <= 100)%nat /\ bc_author_ids b <> []).
Proof.
  split; [apply validate_title_iff|]. split; [apply validate_author_ids_iff|].
  unfold validate_book_create. rewrite !andb_true_iff.
  intros ((((Ht & _) & _) & _) & Ha).
  split; [apply validate_title_iff, Ht|apply validate_author_ids_iff, Ha].
Qed.

Lemma book_create_title_and_authors_witness :
  validate_book_create Sample.pamphlet = true /\
  (2 <= String.length (bc_title Sample.pamphlet) <= 100)%nat /\
  bc_author_ids Sample.pamphlet <> [].
Proof.
  assert (H : validate_book_create Sample.pamphlet = true) by reflexivity.
  split; [exact H|].
  exact (proj2 (proj2 (book_create_title_and_authors Sample.pamphlet)) H).
Defined.

(** ** A create that arrives already returned *)

Lemma select_where_nil_of_book bid (tbl : gmap Z BorrowRecord) :
  select_where (active_of_book bid) tbl = [] ->
  forall k r, tbl !! k = Some r -> book_id r = bid -> returned_date r <> None.
Proof.
  intros Hnil k r Hk Hb Hret.
  pose proof (proj1 (select_where_nil _ _) Hnil k r Hk) as Hf.
  unfold active_of_book, is_null in Hf. rewrite Hb, Z.eqb_refl, Hret in Hf.
  discriminate.
Qed.

(** C9. The row a create stores has every field of the payload, the
    optional [returned_date], [fine_amount] and [notes] included.  So a valid
    body that supplies [returned_date] creates a record that is RETURNED from
    the start, while the book is turned to borrowed: the store then holds a
    borrowed book that no ACTIVE record references. *)
Theorem create_borrow_record_can_store_returned_record :
  (forall clk p st st' id r,
     create_borrow_record clk p st = Ok (st', (id, r)) ->
     borrow_records st' !! id = Some r /\
     user_id r = c_user_id p /\ book_id r = c_book_id p /\
     borrowed_date r = c_borrowed_date p /\ due_date r = c_due_date p /\
     returned_date r = c_returned_date p /\
     fine_amount r = c_fine_amount p /\ notes r = c_notes p) /\
  (exists clk body st st' id r t,
     body_returned_date body = Some t /\
     post_borrow_record clk body st = Ok (st', (id, r)) /\
     borrow_records st' !! id = Some r /\
     returned_date r = Some t /\
     (exists b0, books st !! body_book_id body = Some b0 /\ status b0 = AVAILABLE) /\
     (exists b, books st' !! body_book_id body = Some b /\ status b = BORROWED) /\
     (forall k x, borrow_records st' !! k = Some x ->
                  book_id x = body_book_id body -> returned_date x <> None)).
Proof.
  split.
  - intros clk p st st' id r Hok.
    apply create_borrow_record_Ok in Hok as (-> & Hid & _).
    split; [exact Hid|]. repeat split.
  - exists Sample.clk, Sample.returned_on_arrival, Sample.library.
    destruct (post_borrow_record Sample.clk Sample.returned_on_arrival Sample.library)
      as [[st' [id r]]|e] eqn:Hpost; [|vm_compute in Hpost; discriminate Hpost].
    exists st', id, r, Sample.next_day.
    split; [reflexivity|]. split; [reflexivity|].
    assert (Hst : st' = created_store Sample.clk Sample.returned_on_arrival_parsed
                    Sample.library Sample.emma /\ id = 101 /\
                  r = mk_borrow 2 11 (utcnow Sample.clk 0) (Sample.day0 + 14)
                                (Some Sample.next_day) None None).
    { vm_compute in Hpost. injection Hpost as <- <- <-.
      repeat split; vm_compute; reflexivity. }
    destruct Hst as (-> & -> & ->).
    split; [reflexivity|]. split; [reflexivity|].
    split; [exists Sample.emma; split; reflexivity|].
    split; [eexists; split; reflexivity|].
    apply select_where_nil_of_book. vm_compute. reflexivity.
Qed.

Lemma create_borrow_record_can_store_returned_record_witness :
  exists st' id r,
    create_borrow_record Sample.clk Sample.returned_on_arrival_parsed Sample.library
    = Ok (st', (id, r)) /\
    returned_date r = Some Sample.next_day.
Proof.
  set (p := Sample.returned_on_arrival_parsed).
  destruct (create_borrow_record Sample.clk p Sample.library)
    as [[st' [id r]]|e] eqn:Hok; [|vm_compute in Hok; discriminate Hok].
  exists st', id, r. split; [reflexivity|].
  destruct (proj1 create_borrow_record_can_store_returned_record
              Sample.clk p Sample.library st' id r Hok)
    as (_ & _ & _ & _ & _ & Hret & _).
  exact Hret.
Defined.

(** ** The book row behind a record *)





(** * Further properties of the handlers *)

(** ** What a successful call did *)

Lemma return_book_Ok_inv clk id st st' r' :
  return_book clk id st = Ok (st', r') ->
  exists r b,
    borrow_records st !! id = Some r /\ returned_date r = None /\
    books st !! book_id r = Some b /\
    r' = set_returned_date (Some (utcnow clk 0)) r /\
    st' = mk_store (users st)
            (<[book_id r := set_book_updated_at (utcnow clk 1)
                              (set_status AVAILABLE b)]> (books st))
            (<[id := r']> (borrow_records st)).
Proof.
  unfold return_book. unfold_result.
  destruct (borrow_records st !! id) as [r|] eqn:Hr; [|discriminate].
  destruct (returned_date r) as [t|] eqn:Hret; [discriminate|]. simpl.
  destruct (books st !! book_id r) as [b|] eqn:Hb; [|discriminate].
  intros [= <- <-]. exists r, b. repeat split; auto.
Qed.

Lemma extend_due_date_Ok_inv clk id n st st' r' :
  extend_due_date clk id n st = Ok (st', r') ->
  exists r,
    1 <= n <= 30 /\
    borrow_records st !! id = Some r /\ returned_date r = None /\
    valid (due_date r + n) = true /\
    r' = set_notes (Some (extension_note clk n)) (set_due_date (due_date r + n) r) /\
    st' = with_borrow_records (<[id := r']> (borrow_records st)) st.
Proof.
  unfold extend_due_date. unfold_result.
  destruct (check_number extend_days_query (inject_Z n)) eqn:Hn; [|discriminate].
  apply extend_days_accepted in Hn. simpl.
  destruct (borrow_records st !! id) as [r|] eqn:Hr; [|discriminate].
  destruct (returned_date r) as [t|] eqn:Hret; [discriminate|]. simpl.
  unfold add_days. simpl.
  destruct ((0 <? due_date r + n) && (due_date r + n <=? MAXORDINAL)) eqn:Hv;
    [|discriminate].
  intros [= <- <-]. exists r. repeat split; auto; try lia.
  apply andb_true_iff in Hv as [H1 H2]. apply Z.ltb_lt in H1.
  unfold valid, MINORDINAL. apply andb_true_iff. split; [apply Z.leb_le; lia|exact H2].
Qed.

Lemma delete_borrow_record_Ok_inv clk id st st' :
  delete_borrow_record clk id st = Ok (st', tt) ->
  exists r,
    borrow_records st !! id = Some r /\
    ((exists t, returned_date r = Some t) /\ st' = remove_record id st \/
     returned_date r = None /\
     exists b, books st !! book_id r = Some b /\
       st' = remove_record id
               (with_books (<[book_id r := set_book_updated_at (utcnow clk 0)
                                             (set_status AVAILABLE b)]> (books st))
                           st)).
Proof.
  unfold delete_borrow_record, release_book. unfold_result.
  destruct (borrow_records st !! id) as [r|] eqn:Hr; [|discriminate].
  exists r. split; [reflexivity|].
  destruct (returned_date r) as [t|] eqn:Hret; simpl in *.
  - left. split; [eauto|]. congruence.
  - right. split; [reflexivity|].
    destruct (books st !! book_id r) as [b|] eqn:Hb; [|discriminate].
    exists b. split; [reflexivity|]. simpl in H. congruence.
Qed.

Lemma create_borrow_record_Ok_inv clk p st st' id r :
  create_borrow_record clk p st = Ok (st', (id, r)) ->
  exists u b,
    users st !! c_user_id p = Some u /\ is_active u = true /\
    books st !! c_book_id p = Some b /\ status b = AVAILABLE /\
    (List.length (active_borrows p st) < 5)%nat /\
    overdue_borrows clk p st = [] /\
    id = next_id (borrow_records st) /\ r = BorrowRecord_of_dump p /\
    st' = created_store clk p st b.
Proof.
  unfold create_borrow_record, active_borrows, overdue_borrows, created_store.
  unfold_result.
  destruct (users st !! c_user_id p) as [u|] eqn:Hu; [|discriminate].
  destruct (is_active u) eqn:Hact; [|discriminate]. simpl.
  destruct (books st !! c_book_id p) as [b|] eqn:Hb; [|discriminate].
  destruct (BookStatus_eqb (status b) AVAILABLE) eqn:Hs; [|discriminate]. simpl.
  apply BookStatus_eqb_eq in Hs.
  destruct (MAX_ACTIVE_BORROWS <=? _) eqn:Hn; [discriminate|].
  apply Z.leb_gt in Hn. unfold MAX_ACTIVE_BORROWS in Hn.
  destruct (nonempty _) eqn:Ho; [discriminate|].
  apply nonempty_false in Ho.
  intros [= <- <- <-]. exists u, b. repeat split; auto. lia.
Qed.

(** ** The computed properties of a record *)

(** [days_overdue] is never negative; it is positive exactly when
    [is_overdue] holds, that is for an unreturned record whose due date is
    before today, and it then counts the days from the due date to today.  A
    returned record is never overdue, however late it came back. *)
Theorem days_overdue_counts_late_days clk r :
  0 <= days_overdue clk r /\
  (is_overdue clk r = true <-> 0 < days_overdue clk r) /\
  (is_overdue clk r = true <-> returned_date r = None /\ due_date r < today clk) /\
  (is_overdue clk r = true -> due_date r + days_overdue clk r = today clk) /\
  (forall t, returned_date r = Some t ->
             is_overdue clk r = false /\ days_overdue clk r = 0).
Proof.
  unfold days_overdue, is_overdue, days_between, truthy.
  destruct (returned_date r) as [t|]; simpl.
  - split; [lia|]. split; [split; [discriminate|lia]|].
    split; [split; [discriminate|intros [H _]; discriminate H]|].
    split; [discriminate|]. intros _ _. split; reflexivity.
  - destruct (due_date r <? today clk) eqn:E; simpl.
    + apply Z.ltb_lt in E. split; [lia|]. split; [split; [lia|reflexivity]|].
      split; [split; [auto|reflexivity]|]. split; [lia|discriminate].
    + apply Z.ltb_ge in E. split; [lia|]. split; [split; [discriminate|lia]|].
      split; [split; [discriminate|intros [_ H]; lia]|].
      split; [discriminate|discriminate].
Qed.

Lemma days_overdue_counts_late_days_witness :
  is_overdue Sample.clk Sample.late_loan = true /\
  due_date Sample.late_loan + days_overdue Sample.clk Sample.late_loan
  = today Sample.clk.
Proof.
  assert (H : is_overdue Sample.clk Sample.late_loan = true) by reflexivity.
  split; [exact H|].
  destruct (days_overdue_counts_late_days Sample.clk Sample.late_loan)
    as (_ & _ & _ & Hd & _).
  exact (Hd H).
Defined.

(** The overdue query of [create_borrow_record] selects exactly the rows of
    the payload's user on which the [is_overdue] property is true: the SQL
    filter and the Python property agree. *)
Lemma overdue_query_agrees_with_property clk p st k r :
  In (k, r) (overdue_borrows clk p st) <->
  borrow_records st !! k = Some r /\ user_id r = c_user_id p /\
  is_overdue clk r = true.
Proof.
  unfold overdue_borrows. rewrite select_where_In, overdue_of_user_spec.
  unfold is_overdue, truthy.
  destruct (returned_date r); rewrite ?Z.ltb_lt; intuition congruence.
Qed.

(** ** Return *)

(** A record can be returned once: after a successful return, another return
    of the same id is refused with 400, at any later time, and the stored
    record keeps the [returned_date] and [fine_amount] of the first return. *)
Theorem return_book_only_once clk clk' id st st' r' :
  return_book clk id st = Ok (st', r') ->
  return_book clk' id st' = Raise (HTTPException 400 BookAlreadyReturned) /\
  classify (HTTPException 400 BookAlreadyReturned) = Conflict /\
  borrow_records (store_after st' (return_book clk' id st')) !! id = Some r'.
Proof.
  intros H. apply return_book_Ok_inv in H as (r & b & Hr & Hret & Hb & -> & ->).
  unfold return_book. unfold_result. simpl.
  rewrite lookup_insert_eq. simpl. repeat split. apply lookup_insert_eq.
Qed.

Lemma return_book_only_once_witness :
  exists st' r',
    return_book Sample.clk 100 Sample.library = Ok (st', r') /\
    return_book Sample.clk 100 st' = Raise (HTTPException 400 BookAlreadyReturned).
Proof.
  destruct (return_book Sample.clk 100 Sample.library) as [[st' r']|e] eqn:H;
    [|vm_compute in H; discriminate H].
  exists st', r'. split; [reflexivity|].
  exact (proj1 (return_book_only_once Sample.clk Sample.clk 100 Sample.library
                  st' r' H)).
Defined.

(** A successful return writes two rows and nothing else: the record, of
    which only [returned_date] changes, and the book of the record, which
    becomes available.  Users, the other records and the other books are as
    before. *)
Theorem return_book_frame clk id st st' r' :
  return_book clk id st = Ok (st', r') ->
  users st' = users st /\
  (forall k, k <> id -> borrow_records st' !! k = borrow_records st !! k) /\
  (forall k, k <> book_id r' -> books st' !! k = books st !! k) /\
  (exists r, borrow_records st !! id = Some r /\
     user_id r' = user_id r /\ book_id r' = book_id r /\
     borrowed_date r' = borrowed_date r /\ due_date r' = due_date r /\
     fine_amount r' = fine_amount r /\ notes r' = notes r) /\
  (exists b b', books st !! book_id r' = Some b /\
     books st' !! book_id r' = Some b' /\ status b' = AVAILABLE /\
     title b' = title b /\ pages b' = pages b /\ genre b' = genre b).
Proof.
  intros H. apply return_book_Ok_inv in H as (r & b & Hr & Hret & Hb & -> & ->).
  simpl. split; [reflexivity|].
  split; [intros k Hk; apply lookup_insert_ne; congruence|].
  split; [intros k Hk; apply lookup_insert_ne; congruence|].
  split; [exists r; repeat split; assumption|].
  exists b. eexists. split; [exact Hb|]. rewrite lookup_insert_eq.
  split; [reflexivity|]. repeat split.
Qed.

Lemma return_book_frame_witness :
  exists st' r',
    return_book Sample.clk 100 Sample.library = Ok (st', r') /\
    users st' = users Sample.library /\
    books st' !! 11 = books Sample.library !! 11.
Proof.
  destruct (return_book Sample.clk 100 Sample.library) as [[st' r']|e] eqn:H;
    [|vm_compute in H; discriminate H].
  exists st', r'. split; [reflexivity|].
  destruct (return_book_frame Sample.clk 100 Sample.library st' r' H)
    as (Hu & _ & Hb & _).
  split; [exact Hu|]. apply Hb.
  vm_compute in H. injection H as <- <-. simpl. discriminate.
Defined.

(** ** Create, then the other operations *)

(** A create whose payload carries a [returned_date] leaves the book
    borrowed with no way back through the record: returning the new record
    is refused with 400, and deleting it removes the record without touching
    the book, which stays borrowed. *)
Theorem returned_on_create_strands_book clk clk' p st st' id r t :
  c_returned_date p = Some t ->
  create_borrow_record clk p st = Ok (st', (id, r)) ->
  return_book clk' id st' = Raise (HTTPException 400 BookAlreadyReturned) /\
  exists st'',
    delete_borrow_record clk' id st' = Ok (st'', tt) /\
    borrow_records st'' !! id = None /\
    exists b, books st'' !! c_book_id p = Some b /\ status b = BORROWED.
Proof.
  intros Ht H.
  apply create_borrow_record_Ok_inv in H
    as (u & b & _ & _ & Hb & _ & _ & _ & -> & -> & ->).
  unfold return_book, delete_borrow_record, created_store. unfold_result. simpl.
  rewrite !lookup_insert_eq. simpl. rewrite Ht. simpl.
  split; [reflexivity|]. eexists. split; [reflexivity|]. simpl.
  split; [apply lookup_delete_eq|].
  eexists. rewrite lookup_insert_eq. split; reflexivity.
Qed.

Lemma returned_on_create_strands_book_witness :
  exists st' id r,
    create_borrow_record Sample.clk Sample.returned_on_arrival_parsed Sample.library
    = Ok (st', (id, r)) /\
    return_book Cases.later id st' = Raise (HTTPException 400 BookAlreadyReturned).
Proof.
  destruct (create_borrow_record Sample.clk Sample.returned_on_arrival_parsed
              Sample.library) as [[st' [id r]]|e] eqn:H;
    [|vm_compute in H; discriminate H].
  exists st', id, r. split; [reflexivity|].
  exact (proj1 (returned_on_create_strands_book Sample.clk Cases.later
                  Sample.returned_on_arrival_parsed Sample.library st' id r
                  Sample.next_day eq_refl H)).
Defined.

(** Deleting a record right after it was created undoes the create: the
    table of records and the users are what they were, and the book is
    available again, with only its [updated_at] moved. *)
Theorem create_then_delete_restores clk clk' p st st' id r :
  c_returned_date p = None ->
  create_borrow_record clk p st = Ok (st', (id, r)) ->
  exists st'' b,
    delete_borrow_record clk' id st' = Ok (st'', tt) /\
    users st'' = users st /\
    borrow_records st'' = borrow_records st /\
    books st !! c_book_id p = Some b /\
    books st'' = <[c_book_id p := set_book_updated_at (utcnow clk' 0) b]> (books st).
Proof.
  intros Hnone H.
  apply create_borrow_record_Ok_inv in H
    as (u & b & _ & _ & Hb & Hs & _ & _ & -> & -> & ->).
  unfold delete_borrow_record, release_book, created_store, remove_record.
  unfold_result. simpl.
  rewrite !lookup_insert_eq. simpl. rewrite Hnone. simpl.
  rewrite ?lookup_insert_eq. simpl.
  eexists _, b. split; [reflexivity|]. simpl.
  split; [reflexivity|].
  split; [apply delete_insert_id, next_id_fresh|].
  split; [exact Hb|]. rewrite insert_insert_eq.
  destruct b; simpl in *; subst; reflexivity.
Qed.

Lemma create_then_delete_restores_witness :
  exists st' id r st'',
    create_borrow_record Sample.clk Sample.plain_borrow Sample.library
    = Ok (st', (id, r)) /\
    delete_borrow_record Cases.later id st' = Ok (st'', tt) /\
    borrow_records st'' = borrow_records Sample.library.
Proof.
  destruct (create_borrow_record Sample.clk Sample.plain_borrow Sample.library)
    as [[st' [id r]]|e] eqn:H; [|vm_compute in H; discriminate H].
  destruct (create_then_delete_restores Sample.clk Cases.later Sample.plain_borrow
              Sample.library st' id r eq_refl H)
    as (st'' & b & Hdel & _ & Hrec & _).
  exists st', id, r, st''. exact (conj eq_refl (conj Hdel Hrec)).
Defined.

(** The life of a loan: a borrow that went through can be returned, the
    return makes the book available again and closes the record, and the same
    payload then goes through again as soon as none of the user's earlier
    loans is overdue. *)
Theorem borrow_return_borrow_again clk clk' clk'' p st st1 id r :
  c_returned_date p = None ->
  create_borrow_record clk p st = Ok (st1, (id, r)) ->
  exists st2 r2,
    return_book clk' id st1 = Ok (st2, r2) /\
    returned_date r2 = Some (utcnow clk' 0) /\
    (exists b2, books st2 !! c_book_id p = Some b2 /\ status b2 = AVAILABLE) /\
    (overdue_borrows clk'' p st = [] ->
     exists st3 id3 r3,
       create_borrow_record clk'' p st2 = Ok (st3, (id3, r3)) /\
       id3 <> id /\
       borrow_records st3 !! id = Some r2 /\
       borrow_records st3 !! id3 = Some r3 /\ returned_date r3 = None).
Proof.
  intros Hnone H.
  apply create_borrow_record_Ok_inv in H
    as (u & b & Hu & Hact & Hb & Hs & Hn & _ & -> & -> & ->).
  unfold return_book, created_store. unfold_result. simpl.
  rewrite !lookup_insert_eq. simpl. rewrite Hnone. simpl.
  rewrite ?lookup_insert_eq. simpl.
  eexists _, _. split; [reflexivity|]. simpl.
  split; [reflexivity|].
  split; [eexists; rewrite lookup_insert_eq; split; reflexivity|].
  intros Ho.
  rewrite !insert_insert_eq.
  set (r2 := set_returned_date (Some (utcnow clk' 0)) (BorrowRecord_of_dump p)).
  set (b2 := set_book_updated_at (utcnow clk' 1)
               (set_status AVAILABLE
                  (set_book_updated_at (utcnow clk 1) (set_status BORROWED b)))).
  set (st2 := mk_store (users st) (<[c_book_id p := b2]> (books st))
                (<[next_id (borrow_records st) := r2]> (borrow_records st))).
  assert (Hfresh : borrow_records st !! next_id (borrow_records st) = None)
    by apply next_id_fresh.
  assert (Hact2 : active_borrows p st2 ≡ₚ active_borrows p st).
  { unfold active_borrows, st2. simpl.
    rewrite (select_where_insert_fresh _ _ _ r2 Hfresh).
    unfold r2. rewrite returned_not_active. reflexivity. }
  assert (Hov2 : overdue_borrows clk'' p st2 = []).
  { apply Permutation_nil_eq. rewrite <- Ho. unfold overdue_borrows, st2. simpl.
    rewrite (select_where_insert_fresh _ _ _ r2 Hfresh).
    unfold r2. rewrite returned_not_overdue. reflexivity. }
  assert (Hok := create_borrow_record_passes clk'' p st2 u b2).
  rewrite Hok; clear Hok; auto.
  - eexists _, _, _. split; [reflexivity|]. unfold created_store, st2. simpl.
    assert (Hne : next_id (<[next_id (borrow_records st) := r2]> (borrow_records st))
                  <> next_id (borrow_records st)).
    { intros Heq.
      pose proof (next_id_fresh (<[next_id (borrow_records st) := r2]>
                                   (borrow_records st))) as Hf.
      rewrite Heq, lookup_insert_eq in Hf. discriminate. }
    split; [exact Hne|].
    split; [rewrite lookup_insert_ne by exact Hne; apply lookup_insert_eq|].
    split; [apply lookup_insert_eq|exact Hnone].
  - unfold st2. simpl. apply lookup_insert_eq.
  - rewrite (Permutation_length Hact2). exact Hn.
Qed.

Lemma borrow_return_borrow_again_witness :
  exists st1 id r st2 r2 st3 id3 r3,
    create_borrow_record Sample.clk Sample.plain_borrow Sample.library
    = Ok (st1, (id, r)) /\
    return_book Cases.later id st1 = Ok (st2, r2) /\
    overdue_borrows Cases.later Sample.plain_borrow Sample.library = [] /\
    create_borrow_record Cases.later Sample.plain_borrow st2 = Ok (st3, (id3, r3)).
Proof.
  destruct (create_borrow_record Sample.clk Sample.plain_borrow Sample.library)
    as [[st1 [id r]]|e] eqn:H; [|vm_compute in H; discriminate H].
  destruct (borrow_return_borrow_again Sample.clk Cases.later Cases.later
              Sample.plain_borrow Sample.library st1 id r eq_refl H)
    as (st2 & r2 & Hret & _ & _ & Hagain).
  assert (Ho : overdue_borrows Cases.later Sample.plain_borrow Sample.library = [])
    by reflexivity.
  destruct (Hagain Ho) as (st3 & id3 & r3 & H3 & _).
  exists st1, id, r, st2, r2, st3, id3, r3.
  exact (conj eq_refl (conj Hret (conj Ho H3))).
Defined.



(** ** Extend, again and out of range *)

(** Extensions add up and there is no cap on their sum: after two successful
    extensions the due date has moved by [n + m] days; of the two audit notes
    only the second is kept; the fine, the books and the users are as before. *)
Theorem extend_due_date_accumulates clk clk' id n m st st1 r1 st2 r2 :
  extend_due_date clk id n st = Ok (st1, r1) ->
  extend_due_date clk' id m st1 = Ok (st2, r2) ->
  exists r,
    borrow_records st !! id = Some r /\
    due_date r2 = due_date r + (n + m) /\
    notes r2 = Some (extension_note clk' m) /\
    fine_amount r2 = fine_amount r /\
    books st2 = books st /\ users st2 = users st.
Proof.
  intros H1 H2.
  apply extend_due_date_Ok_inv in H1 as (r & _ & Hr & _ & _ & -> & ->).
  apply extend_due_date_Ok_inv in H2 as (r1 & _ & Hr1 & _ & _ & -> & ->).
  simpl in Hr1. rewrite lookup_insert_eq in Hr1. injection Hr1 as <-.
  exists r. simpl. repeat split; auto. lia.
Qed.

Lemma extend_due_date_accumulates_witness :
  exists st1 r1 st2 r2,
    extend_due_date Sample.clk 100 7 Sample.library = Ok (st1, r1) /\
    extend_due_date Cases.later 100 30 st1 = Ok (st2, r2) /\
    due_date r2 = due_date Sample.late_loan + 37.
Proof.
  destruct (extend_due_date Sample.clk 100 7 Sample.library) as [[st1 r1]|e] eqn:H1;
    [|vm_compute in H1; discriminate H1].
  destruct (extend_due_date Cases.later 100 30 st1) as [[st2 r2]|e] eqn:H2;
    [|vm_compute in H1; injection H1 as <- <-; vm_compute in H2; discriminate H2].
  exists st1, r1, st2, r2. split; [reflexivity|]. split; [exact H2|].
  destruct (extend_due_date_accumulates Sample.clk Cases.later 100 7 30
              Sample.library st1 r1 st2 r2 H1 H2) as (r & Hr & Hd & _).
  vm_compute in Hr. injection Hr as <-. exact Hd.
Defined.

(** An extension outside 1..30 days is answered 422 before the record is
    looked up: whatever the store and the id, nothing is read or written. *)
Lemma extend_due_date_rejects_out_of_range clk id n st :
  n < 1 \/ 30 < n ->
  extend_due_date clk id n st = Raise (RequestValidationError "extend_days") /\
  response_status (RequestValidationError "extend_days") = 422.
Proof.
  intros Hn. unfold extend_due_date. unfold_result.
  destruct (check_number extend_days_query (inject_Z n)) eqn:E.
  - apply extend_days_accepted in E. lia.
  - split; reflexivity.
Qed.

(** Extending an overdue loan by at least the days it is late takes it out of
    the overdue state: the record is not overdue afterwards, the overdue query
    no longer selects it, and its fine is what it was. *)
Theorem extend_due_date_lifts_overdue clk id n st st' r' :
  extend_due_date clk id n st = Ok (st', r') ->
  exists r,
    borrow_records st !! id = Some r /\
    (days_overdue clk r <= n ->
     is_overdue clk r' = false /\ days_overdue clk r' = 0 /\
     fine_amount r' = fine_amount r /\
     ~ In (id, r') (select_where (overdue_of_user clk (user_id r'))
                                 (borrow_records st'))).
Proof.
  intros H. apply extend_due_date_Ok_inv in H as (r & _ & Hr & Hret & _ & -> & ->).
  exists r. split; [exact Hr|]. intros Hd.
  assert (Hno : is_overdue clk
                  (set_notes (Some (extension_note clk n))
                             (set_due_date (due_date r + n) r)) = false).
  { unfold is_overdue. simpl. rewrite Hret. simpl. apply Z.ltb_ge.
    revert Hd. unfold days_overdue, is_overdue, days_between. rewrite Hret. simpl.
    destruct (due_date r <? today clk) eqn:E; simpl; [lia|].
    apply Z.ltb_ge in E. lia. }
  split; [exact Hno|]. split; [unfold days_overdue; rewrite Hno; reflexivity|].
  split; [reflexivity|].
  intros Hin. apply select_where_In in Hin as [_ Hov].
  apply overdue_of_user_spec in Hov as (_ & _ & Hlt).
  unfold is_overdue in Hno. simpl in *. rewrite Hret in Hno. simpl in Hno.
  apply Z.ltb_ge in Hno. lia.
Qed.

Lemma extend_due_date_lifts_overdue_witness :
  is_overdue Sample.clk Sample.late_loan = true /\
  days_overdue Sample.clk Sample.late_loan <= 10 /\
  exists st' r',
    extend_due_date Sample.clk 100 10 Sample.library = Ok (st', r') /\
    is_overdue Sample.clk r' = false.
Proof.
  split; [reflexivity|].
  assert (Hd : days_overdue Sample.clk Sample.late_loan <= 10)
    by (vm_compute; discriminate).
  split; [exact Hd|].
  destruct (extend_due_date Sample.clk 100 10 Sample.library) as [[st' r']|e] eqn:H;
    [|vm_compute in H; discriminate H].
  exists st', r'. split; [reflexivity|].
  destruct (extend_due_date_lifts_overdue Sample.clk 100 10 Sample.library st' r' H)
    as (r & Hr & Hlift).
  vm_compute in Hr. injection Hr as <-.
  exact (proj1 (Hlift Hd)).
Defined.

(** ** The generic update *)

Lemma update_borrow_record_Ok_inv id u st st' r' :
  update_borrow_record id u st = Ok (st', r') ->
  exists r,
    borrow_records st !! id = Some r /\
    u_due_date u <> Some None /\
    r' = mk_borrow (user_id r) (book_id r) (borrowed_date r)
           (default (due_date r) (mjoin (u_due_date u)))
           (default (returned_date r) (u_returned_date u))
           (default (fine_amount r) (u_fine_amount u))
           (default (notes r) (u_notes u)) /\
    st' = with_borrow_records (<[id := r']> (borrow_records st)) st.
Proof.
  unfold update_borrow_record. unfold_result.
  destruct (borrow_records st !! id) as [r|] eqn:Hr; [|discriminate].
  simpl. exists r. split; [reflexivity|].
  destruct (u_due_date u) as [[d|]|]; [| discriminate |];
    (split; [discriminate|]); injection H as <- <-;
    destruct r, (u_returned_date u), (u_fine_amount u), (u_notes u);
    split; reflexivity.
Qed.

(** The update endpoint writes one row, the record of the id, and of that
    row never [user_id], [book_id] or [borrowed_date]: users, books and the
    other records are as before, whatever the body sets. *)
Theorem patch_borrow_record_frame id u st st' r' :
  patch_borrow_record id u st = Ok (st', r') ->
  users st' = users st /\ books st' = books st /\
  (forall k, k <> id -> borrow_records st' !! k = borrow_records st !! k) /\
  borrow_records st' !! id = Some r' /\
  exists r, borrow_records st !! id = Some r /\
    user_id r' = user_id r /\ book_id r' = book_id r /\
    borrowed_date r' = borrowed_date r.
Proof.
  unfold patch_borrow_record, parse_borrow_update. unfold_result.
  destruct (negb _); [discriminate|]. destruct (negb _); [discriminate|].
  intros H. apply update_borrow_record_Ok_inv in H as (r & Hr & _ & -> & ->).
  simpl. split; [reflexivity|]. split; [reflexivity|].
  split; [intros k Hk; apply lookup_insert_ne; congruence|].
  split; [apply lookup_insert_eq|]. exists r. repeat split; assumption.
Qed.

Lemma patch_borrow_record_frame_witness :
  exists st' r',
    patch_borrow_record 100 Sample.early_return_patch Sample.library = Ok (st', r') /\
    books st' = books Sample.library.
Proof.
  destruct (patch_borrow_record 100 Sample.early_return_patch Sample.library)
    as [[st' r']|e] eqn:H; [|vm_compute in H; discriminate H].
  exists st', r'. split; [reflexivity|].
  destruct (patch_borrow_record_frame 100 Sample.early_return_patch Sample.library
              st' r' H) as (_ & Hb & _).
  exact Hb.
Defined.



(** A body with [returned_date: null] reopens a RETURNED record: the record
    is ACTIVE again, with the fine it had, and the book is not touched; a
    later return of it goes through a second time. *)
Theorem patch_borrow_record_reopens id st r t :
  borrow_records st !! id = Some r ->
  returned_date r = Some t ->
  exists st' r',
    patch_borrow_record id (mk_update None (Some None) None None) st = Ok (st', r') /\
    borrow_records st' !! id = Some r' /\
    returned_date r' = None /\ fine_amount r' = fine_amount r /\
    books st' = books st /\
    (forall clk b, books st !! book_id r = Some b ->
       exists st'' r'', return_book clk id st' = Ok (st'', r'')).
Proof.
  intros Hr Hret.
  unfold patch_borrow_record, parse_borrow_update, update_borrow_record.
  unfold_result. simpl. rewrite Hr. simpl.
  eexists _, _. split; [reflexivity|]. simpl. rewrite lookup_insert_eq.
  repeat split.
  intros clk b Hb. unfold return_book. unfold_result. simpl.
  rewrite lookup_insert_eq. simpl. rewrite Hb. eexists _, _. reflexivity.
Qed.

Lemma patch_borrow_record_reopens_witness :
  borrow_records Sample.library_closed !! 100 = Some Sample.closed_loan /\
  returned_date Sample.closed_loan = Some (mk_datetime 738923 0) /\
  exists st' r',
    patch_borrow_record 100 Cases.reopen_patch Sample.library_closed = Ok (st', r') /\
    returned_date r' = None.
Proof.
  assert (Hr : borrow_records Sample.library_closed !! 100 = Some Sample.closed_loan)
    by reflexivity.
  refine (conj Hr (conj eq_refl _)).
  destruct (patch_borrow_record_reopens 100 Sample.library_closed Sample.closed_loan
              _ Hr eq_refl) as (st' & r' & H1 & _ & H2 & _).
  exists st', r'. exact (conj H1 H2).
Defined.

(** ** After a delete *)

(** A deleted record is gone for every route: looking it up, returning it
    and deleting it again all answer 404. *)
Theorem deleted_record_is_gone clk clk' id st st' :
  delete_borrow_record clk id st = Ok (st', tt) ->
  get_borrow_record id st' = Raise (HTTPException 404 BorrowRecordNotFound) /\
  return_book clk' id st' = Raise (HTTPException 404 BorrowRecordNotFound) /\
  delete_borrow_record clk' id st'
  = Raise (HTTPException 404 BorrowRecordNotFound) /\
  (forall k, k <> id -> borrow_records st' !! k = borrow_records st !! k) /\
  users st' = users st.
Proof.
  intros H. apply delete_borrow_record_Ok_inv in H as (r & Hr & Hcase).
  assert (Hrec : borrow_records st' = delete id (borrow_records st) /\
                 users st' = users st).
  { destruct Hcase as [[_ ->]|[_ (b & _ & ->)]]; split; reflexivity. }
  destruct Hrec as [Hrec Hus].
  assert (Hgone : borrow_records st' !! id = None)
    by (rewrite Hrec; apply lookup_delete_eq).
  unfold get_borrow_record, return_book, delete_borrow_record. unfold_result.
  rewrite Hgone. repeat split; auto.
  intros k Hk. rewrite Hrec. apply lookup_delete_ne. congruence.
Qed.

Lemma deleted_record_is_gone_witness :
  exists st',
    delete_borrow_record Sample.clk 100 Sample.library = Ok (st', tt) /\
    return_book Cases.later 100 st' = Raise (HTTPException 404 BorrowRecordNotFound).
Proof.
  destruct (delete_borrow_record Sample.clk 100 Sample.library) as [[st' []]|e] eqn:H;
    [|vm_compute in H; discriminate H].
  exists st'. split; [reflexivity|].
  destruct (deleted_record_is_gone Sample.clk Cases.later 100 Sample.library st' H)
    as (_ & Hret & _).
  exact Hret.
Defined.

(** ** Invariants the lifecycle keeps *)

Lemma create_keeps_consistent clk p st st' id r :
  loans_consistent st ->
  create_borrow_record clk p st = Ok (st', (id, r)) -> loans_consistent st'.
Proof.
  intros [Ha Hb] H.
  apply create_borrow_record_Ok_inv in H
    as (u & b & _ & _ & Hbook & Hs & _ & _ & -> & -> & ->).
  unfold created_store. split.
  - intros k r0 Hk Hret. simpl in *.
    apply lookup_insert_Some in Hk as [[<- <-]|[Hne Hk]].
    + simpl. eexists. rewrite lookup_insert_eq. split; reflexivity.
    + destruct (Ha k r0 Hk Hret) as (b0 & Hb0 & Hs0).
      destruct (decide (c_book_id p = book_id r0)) as [e|ne].
      * rewrite <- e, lookup_insert_eq. eexists. split; reflexivity.
      * rewrite lookup_insert_ne by exact ne. eauto.
  - intros k k' r0 r0' Hk Hk' Hr Hr' Hbid. simpl in *.
    apply lookup_insert_Some in Hk as [[<- <-]|[Hne Hk]];
      apply lookup_insert_Some in Hk' as [[<- <-]|[Hne' Hk']].
    + reflexivity.
    + exfalso. destruct (Ha k' r0' Hk' Hr') as (b0 & Hb0 & Hs0).
      simpl in Hbid. rewrite <- Hbid, Hbook in Hb0. injection Hb0 as <-. congruence.
    + exfalso. destruct (Ha k r0 Hk Hr) as (b0 & Hb0 & Hs0).
      simpl in Hbid. rewrite Hbid, Hbook in Hb0. injection Hb0 as <-. congruence.
    + eapply Hb; eauto.
Qed.

Lemma return_keeps_consistent clk id st st' r' :
  loans_consistent st ->
  return_book clk id st = Ok (st', r') -> loans_consistent st'.
Proof.
  intros [Ha Hb] H.
  apply return_book_Ok_inv in H as (r & b & Hr & Hret & Hbook & -> & ->).
  split.
  - intros k r0 Hk Hret0. simpl in *.
    apply lookup_insert_Some in Hk as [[<- <-]|[Hne Hk]]; [discriminate|].
    destruct (Ha k r0 Hk Hret0) as (b0 & Hb0 & Hs0).
    destruct (decide (book_id r = book_id r0)) as [e|ne].
    + exfalso. apply Hne. eapply Hb; eauto.
    + rewrite lookup_insert_ne by exact ne. eauto.
  - intros k k' r0 r0' Hk Hk' Hr0 Hr0' Hbid. simpl in *.
    apply lookup_insert_Some in Hk as [[<- <-]|[Hne Hk]]; [discriminate|].
    apply lookup_insert_Some in Hk' as [[<- <-]|[Hne' Hk']]; [discriminate|].
    eapply Hb; eauto.
Qed.

Lemma extend_keeps_consistent clk id n st st' r' :
  loans_consistent st ->
  extend_due_date clk id n st = Ok (st', r') -> loans_consistent st'.
Proof.
  intros [Ha Hb] H.
  apply extend_due_date_Ok_inv in H as (r & _ & Hr & Hret & _ & -> & ->).
  split.
  - intros k r0 Hk Hret0. simpl in *.
    apply lookup_insert_Some in Hk as [[<- <-]|[Hne Hk]].
    + simpl. exact (Ha id r Hr Hret).
    + exact (Ha k r0 Hk Hret0).
  - intros k k' r0 r0' Hk Hk' Hr0 Hr0' Hbid. simpl in *.
    apply lookup_insert_Some in Hk as [[<- <-]|[Hne Hk]];
      apply lookup_insert_Some in Hk' as [[<- <-]|[Hne' Hk']]; simpl in *.
    + reflexivity.
    + eapply Hb; eauto.
    + eapply Hb; eauto.
    + eapply Hb; eauto.
Qed.

Lemma delete_keeps_consistent clk id st st' :
  loans_consistent st ->
  delete_borrow_record clk id st = Ok (st', tt) -> loans_consistent st'.
Proof.
  intros [Ha Hb] H.
  apply delete_borrow_record_Ok_inv in H as (r & Hr & Hcase).
  destruct Hcase as [[_ ->]|[Hret (b & Hbook & ->)]]; split.
  - intros k r0 Hk Hret0. simpl in *.
    apply lookup_delete_Some in Hk as [Hne Hk]. exact (Ha k r0 Hk Hret0).
  - intros k k' r0 r0' Hk Hk' Hr0 Hr0' Hbid. simpl in *.
    apply lookup_delete_Some in Hk as [Hne Hk].
    apply lookup_delete_Some in Hk' as [Hne' Hk']. eapply Hb; eauto.
  - intros k r0 Hk Hret0. simpl in *.
    apply lookup_delete_Some in Hk as [Hne Hk].
    destruct (Ha k r0 Hk Hret0) as (b0 & Hb0 & Hs0).
    destruct (decide (book_id r = book_id r0)) as [e|ne].
    + exfalso. apply Hne. eapply Hb; eauto.
    + rewrite lookup_insert_ne by exact ne. eauto.
  - intros k k' r0 r0' Hk Hk' Hr0 Hr0' Hbid. simpl in *.
    apply lookup_delete_Some in Hk as [Hne Hk].
    apply lookup_delete_Some in Hk' as [Hne' Hk']. eapply Hb; eauto.
Qed.

(** The four lifecycle operations keep the loans consistent: if every ACTIVE
    record references a stored book marked borrowed and no book has two
    ACTIVE records, the same holds after a successful create, return, extend
    or delete. *)
Theorem lifecycle_keeps_loans_consistent st :
  loans_consistent st ->
  (forall clk p st' id r,
     create_borrow_record clk p st = Ok (st', (id, r)) -> loans_consistent st') /\
  (forall clk id st' r',
     return_book clk id st = Ok (st', r') -> loans_consistent st') /\
  (forall clk id n st' r',
     extend_due_date clk id n st = Ok (st', r') -> loans_consistent st') /\
  (forall clk id st',
     delete_borrow_record clk id st = Ok (st', tt) -> loans_consistent st').
Proof.
  intros Hc. split; [|split; [|split]].
  - intros clk p st' id r. apply create_keeps_consistent, Hc.
  - intros clk id st' r'. apply return_keeps_consistent, Hc.
  - intros clk id n st' r'. apply extend_keeps_consistent, Hc.
  - intros clk id st'. apply delete_keeps_consistent, Hc.
Qed.

Lemma sample_library_consistent : loans_consistent Sample.library.
Proof.
  split.
  - intros k r Hk Hret. simpl in Hk.
    apply lookup_insert_Some in Hk as [[<- <-]|[_ Hk]];
      [|rewrite lookup_empty in Hk; discriminate].
    exists Sample.dune. split; reflexivity.
  - intros k k' r r' Hk Hk' _ _ _. simpl in Hk, Hk'.
    apply lookup_insert_Some in Hk as [[<- _]|[_ Hk]];
      [|rewrite lookup_empty in Hk; discriminate].
    apply lookup_insert_Some in Hk' as [[<- _]|[_ Hk']];
      [|rewrite lookup_empty in Hk'; discriminate].
    reflexivity.
Qed.

Lemma lifecycle_keeps_loans_consistent_witness :
  loans_consistent Sample.library /\
  exists st' id r,
    create_borrow_record Sample.clk Sample.plain_borrow Sample.library
    = Ok (st', (id, r)) /\
    loans_consistent st'.
Proof.
  split; [exact sample_library_consistent|].
  destruct (create_borrow_record Sample.clk Sample.plain_borrow Sample.library)
    as [[st' [id r]]|e] eqn:H; [|vm_compute in H; discriminate H].
  exists st', id, r. split; [reflexivity|].
  exact (proj1 (lifecycle_keeps_loans_consistent Sample.library
                  sample_library_consistent) Sample.clk Sample.plain_borrow st' id r H).
Defined.

(** The borrow limit is an invariant of the lifecycle: if no user holds more
    than five ACTIVE records, none does after a successful create, return,
    extend or delete. *)
Theorem lifecycle_keeps_within_limit st :
  within_limit st ->
  (forall clk p st' id r,
     create_borrow_record clk p st = Ok (st', (id, r)) -> within_limit st') /\
  (forall clk id st' r',
     return_book clk id st = Ok (st', r') -> within_limit st') /\
  (forall clk id n st' r',
     extend_due_date clk id n st = Ok (st', r') -> within_limit st') /\
  (forall clk id st',
     delete_borrow_record clk id st = Ok (st', tt) -> within_limit st').
Proof.
  intros Hl. split; [|split; [|split]].
  - intros clk p st' id r H uid.
    apply create_borrow_record_Ok_inv in H
      as (u & b & _ & _ & _ & _ & Hn & _ & -> & -> & ->).
    unfold created_store. simpl.
    rewrite (select_where_insert_fresh _ _ _ _ (next_id_fresh (borrow_records st))).
    rewrite length_app.
    destruct (active_of_user uid (BorrowRecord_of_dump p)) eqn:Hact; simpl.
    + apply active_of_user_spec in Hact as [<- _]. simpl.
      unfold active_borrows in Hn. lia.
    + apply Hl.
  - intros clk id st' r' H uid.
    apply return_book_Ok_inv in H as (r & b & Hr & _ & _ & -> & ->). simpl.
    rewrite (select_where_overwrite _ _ _ _ _ Hr), returned_not_active. simpl.
    specialize (Hl uid).
    rewrite (select_where_delete _ _ _ _ Hr), length_app in Hl. lia.
  - intros clk id n st' r' H uid.
    apply extend_due_date_Ok_inv in H as (r & _ & Hr & _ & _ & -> & ->). simpl.
    rewrite (select_where_overwrite_same _ _ _ r); [apply Hl|exact Hr|reflexivity].
  - intros clk id st' H uid.
    apply delete_borrow_record_Ok_inv in H as (r & Hr & Hcase).
    assert (Hrec : borrow_records st' = delete id (borrow_records st))
      by (destruct Hcase as [[_ ->]|[_ (b & _ & ->)]]; reflexivity).
    rewrite Hrec. specialize (Hl uid).
    rewrite (select_where_delete _ _ _ _ Hr), length_app in Hl. lia.
Qed.

Lemma sample_library_within_limit : within_limit Sample.library.
Proof.
  intros uid.
  change (borrow_records Sample.library) with (<[100 := Sample.late_loan]> ∅ : gmap Z BorrowRecord).
  rewrite (select_where_insert_fresh _ _ _ _ (lookup_empty 100)), length_app.
  unfold select_where at 1. rewrite map_to_list_empty. simpl.
  destruct (active_of_user uid Sample.late_loan); simpl; lia.
Qed.

Lemma lifecycle_keeps_within_limit_witness :
  within_limit Sample.library /\
  exists st' id r,
    create_borrow_record Sample.clk Sample.plain_borrow Sample.library
    = Ok (st', (id, r)) /\
    within_limit st'.
Proof.
  split; [exact sample_library_within_limit|].
  destruct (create_borrow_record Sample.clk Sample.plain_borrow Sample.library)
    as [[st' [id r]]|e] eqn:H; [|vm_compute in H; discriminate H].
  exists st', id, r. split; [reflexivity|].
  exact (proj1 (lifecycle_keeps_within_limit Sample.library
                  sample_library_within_limit) Sample.clk Sample.plain_borrow st' id r H).
Defined.

(** ** Listings *)

Lemma days_overdue_positive clk r : is_overdue clk r = true -> 0 < days_overdue clk r.
Proof.
  intros H. unfold days_overdue. rewrite H. simpl.
  unfold is_overdue in H. destruct (truthy _); [discriminate|].
  apply Z.ltb_lt in H. unfold days_between. lia.
Qed.

Lemma insert_sorted_Permutation {A} (le : A -> A -> bool) x l :
  insert_sorted le x l ≡ₚ x :: l.
Proof.
  induction l as [|y l IH]; simpl; [reflexivity|].
  destruct (le x y); [reflexivity|]. rewrite IH. apply Permutation_swap.
Qed.

Lemma order_by_Permutation {A} (le : A -> A -> bool) l : order_by le l ≡ₚ l.
Proof.
  induction l as [|x l IH]; simpl; [reflexivity|].
  rewrite insert_sorted_Permutation, IH. reflexivity.
Qed.

Section Sorting.
Context {A : Type} (le : A -> A -> bool).
Hypothesis le_total : forall x y, le x y = true \/ le y x = true.
Hypothesis le_trans : forall x y z, le x y = true -> le y z = true -> le x z = true.

Lemma insert_sorted_StronglySorted x l :
  StronglySorted (fun a b => le a b = true) l ->
  StronglySorted (fun a b => le a b = true) (insert_sorted le x l).
Proof.
  induction 1 as [|y l Hs IH Hall]; simpl.
  - constructor; constructor.
  - destruct (le x y) eqn:E.
    + constructor; [constructor; assumption|].
      constructor; [exact E|].
      eapply Forall_impl; [exact Hall|]. intros z Hz. eapply le_trans; eauto.
    + constructor; [exact IH|].
      rewrite insert_sorted_Permutation. constructor; [|exact Hall].
      destruct (le_total x y) as [H|H]; [congruence|exact H].
Qed.

Lemma order_by_StronglySorted l :
  StronglySorted (fun a b => le a b = true) (order_by le l).
Proof.
  induction l as [|x l IH]; simpl; [constructor|].
  apply insert_sorted_StronglySorted, IH.
Qed.
End Sorting.

Lemma StronglySorted_sublist {A} (R : A -> A -> Prop) l1 l2 :
  l1 `sublist_of` l2 -> StronglySorted R l2 -> StronglySorted R l1.
Proof.
  induction 1 as [|x l1 l2 Hsub IH|x l1 l2 Hsub IH]; intros Hs.
  - constructor.
  - apply StronglySorted_inv in Hs as [Hs Hall]. constructor; [auto|].
    apply Forall_forall. intros y Hy. rewrite Forall_forall in Hall.
    apply Hall. eapply elem_of_sublist; eauto.
  - apply StronglySorted_inv in Hs as [Hs _]. auto.
Qed.

Lemma offset_limit_sublist {A} offset limit (l : list A) :
  offset_limit offset limit l `sublist_of` l.
Proof.
  unfold offset_limit. destruct (limit <? 0).
  - apply sublist_drop.
  - etransitivity; [apply sublist_take|apply sublist_drop].
Qed.

Lemma offset_limit_length {A} offset limit (l : list A) :
  0 <= limit -> Z.of_nat (List.length (offset_limit offset limit l)) <= limit.
Proof.
  intros Hl. unfold offset_limit.
  destruct (limit <? 0) eqn:E; [apply Z.ltb_lt in E; lia|].
  rewrite length_take. lia.
Qed.

Lemma dt_ltb_false a b :
  dt_ltb a b = false <->
  dt_date b < dt_date a \/ (dt_date b = dt_date a /\ dt_micros b <= dt_micros a).
Proof.
  unfold dt_ltb. rewrite orb_false_iff, andb_false_iff, !Z.ltb_ge, Z.eqb_neq. lia.
Qed.

Lemma newest_first_total x y : newest_first x y = true \/ newest_first y x = true.
Proof.
  unfold newest_first. rewrite !negb_true_iff, !dt_ltb_false. lia.
Qed.

Lemma newest_first_trans x y z :
  newest_first x y = true -> newest_first y z = true -> newest_first x z = true.
Proof.
  unfold newest_first. rewrite !negb_true_iff, !dt_ltb_false. lia.
Qed.

Lemma newest_first_spec x y :
  newest_first x y = true <-> ~ dt_lt (borrowed_date x.2) (borrowed_date y.2).
Proof.
  unfold newest_first. rewrite negb_true_iff, <- dt_ltb_lt.
  destruct (dt_ltb _ _); split; congruence.
Qed.

Lemma earliest_due_first_total x y :
  earliest_due_first x y = true \/ earliest_due_first y x = true.
Proof. unfold earliest_due_first. rewrite !Z.leb_le. lia. Qed.

Lemma earliest_due_first_trans x y z :
  earliest_due_first x y = true -> earliest_due_first y z = true ->
  earliest_due_first x z = true.
Proof. unfold earliest_due_first. rewrite !Z.leb_le. lia. Qed.

Lemma check_le_accepted b n :
  check_number [("le"%string, b)] (inject_Z n) = true <-> n <= b.
Proof.
  unfold check_number. cbn -[Qle_bool inject_Z].
  rewrite Qle_bool_inject_Z, andb_true_r, Z.leb_le. reflexivity.
Qed.

Lemma check_offset_accepted n :
  check_number offset_query (inject_Z n) = true <-> 0 <= n.
Proof.
  unfold check_number, offset_query. cbn -[Qle_bool inject_Z].
  rewrite Qle_bool_inject_Z, andb_true_r, Z.leb_le. reflexivity.
Qed.

Lemma list_borrow_records_Ok_inv clk q st rows :
  list_borrow_records clk q st = Ok rows ->
  lp_limit q <= 100 /\ 0 <= lp_offset q /\
  rows = offset_limit (lp_offset q) (lp_limit q)
           (order_by newest_first
              (select_where (list_where clk q) (borrow_records st))).
Proof.
  unfold list_borrow_records. unfold_result.
  destruct (check_number list_limit_query _) eqn:Hl; [|discriminate].
  destruct (check_number offset_query _) eqn:Ho; [|discriminate]. simpl.
  apply check_le_accepted in Hl. apply check_offset_accepted in Ho.
  intros [= <-]. auto.
Qed.

Lemma listed_row_selected {A} (le : Z * A -> Z * A -> bool) p (tbl : gmap Z A)
    offset limit k a :
  In (k, a) (offset_limit offset limit (order_by le (select_where p tbl))) ->
  tbl !! k = Some a /\ p a = true.
Proof.
  intros Hin. apply select_where_In.
  apply list_elem_of_In. rewrite <- (order_by_Permutation le).
  eapply elem_of_sublist; [|apply offset_limit_sublist].
  apply list_elem_of_In. exact Hin.
Qed.

(** Every row [GET /borrow-records] answers is a row of the table, listed
    once, that passes each filter the query sets: the user and the book (an
    id of 0 sets none), returned or not, overdue or not - the last as the
    [is_overdue] property of the record has it. *)
Theorem list_borrow_records_rows_match clk q st rows :
  list_borrow_records clk q st = Ok rows ->
  NoDup rows /\
  forall k r, In (k, r) rows ->
    borrow_records st !! k = Some r /\
    (forall u, lp_user_id q = Some u -> u <> 0 -> user_id r = u) /\
    (forall b, lp_book_id q = Some b -> b <> 0 -> book_id r = b) /\
    (lp_is_returned q = Some true -> returned_date r <> None) /\
    (lp_is_returned q = Some false -> returned_date r = None) /\
    (lp_is_overdue q = Some true -> is_overdue clk r = true) /\
    (lp_is_overdue q = Some false -> is_overdue clk r = false).
Proof.
  intros H. apply list_borrow_records_Ok_inv in H as (_ & _ & ->). split.
  - eapply sublist_NoDup; [|apply offset_limit_sublist].
    rewrite order_by_Permutation. apply NoDup_ListNoDup, select_where_NoDup.
  - intros k r Hin. apply listed_row_selected in Hin as [Hk Hw].
    split; [exact Hk|].
    unfold list_where in Hw. rewrite !andb_true_iff in Hw.
    destruct Hw as (((Hu & Hb) & Hr) & Ho).
    split; [|split; [|split; [|split; [|split]]]].
    + intros u Hq Hne. unfold where_user, int_truthy in Hu. rewrite Hq in Hu.
      simpl in Hu. apply Z.eqb_neq in Hne. rewrite Hne in Hu. simpl in Hu.
      apply Z.eqb_eq, Hu.
    + intros b Hq Hne. unfold where_book, int_truthy in Hb. rewrite Hq in Hb.
      simpl in Hb. apply Z.eqb_neq in Hne. rewrite Hne in Hb. simpl in Hb.
      apply Z.eqb_eq, Hb.
    + intros Hq. unfold where_returned in Hr. rewrite Hq in Hr.
      destruct (returned_date r); [discriminate|discriminate Hr].
    + intros Hq. unfold where_returned in Hr. rewrite Hq in Hr.
      destruct (returned_date r); [discriminate Hr|reflexivity].
    + intros Hq. unfold where_overdue in Ho. rewrite Hq in Ho.
      unfold is_overdue. destruct (returned_date r); simpl in *;
        [discriminate Ho|exact Ho].
    + intros Hq. unfold where_overdue in Ho. rewrite Hq in Ho.
      unfold is_overdue. destruct (returned_date r); simpl in *; [reflexivity|].
      apply Z.ltb_ge. apply Z.leb_le in Ho. exact Ho.
Qed.

Lemma list_borrow_records_rows_match_witness :
  exists rows,
    list_borrow_records Sample.clk Cases.everything Cases.two_loans = Ok rows /\
    NoDup rows.
Proof.
  destruct (list_borrow_records Sample.clk Cases.everything Cases.two_loans)
    as [rows|e] eqn:H; [|vm_compute in H; discriminate H].
  exists rows. split; [reflexivity|].
  exact (proj1 (list_borrow_records_rows_match Sample.clk Cases.everything
                  Cases.two_loans rows H)).
Defined.

(** The rows come newest first: no row is followed, anywhere later in the
    answer, by a row with a later [borrowed_date]. *)
Theorem list_borrow_records_newest_first clk q st rows :
  list_borrow_records clk q st = Ok rows ->
  StronglySorted
    (fun x y => ~ dt_lt (borrowed_date (snd x)) (borrowed_date (snd y))) rows.
Proof.
  intros H. apply list_borrow_records_Ok_inv in H as (_ & _ & ->).
  eapply StronglySorted_sublist; [apply offset_limit_sublist|].
  pose proof (order_by_StronglySorted newest_first newest_first_total
                newest_first_trans
                (select_where (list_where clk q) (borrow_records st))) as Hs.
  induction Hs as [|x l Hs IH Hall]; constructor; [exact IH|].
  eapply Forall_impl; [exact Hall|]. intros y Hy. apply newest_first_spec, Hy.
Qed.

Lemma list_borrow_records_newest_first_witness :
  exists rows,
    list_borrow_records Sample.clk Cases.everything Cases.two_loans = Ok rows /\
    StronglySorted
      (fun x y => ~ dt_lt (borrowed_date (snd x)) (borrowed_date (snd y))) rows.
Proof.
  destruct (list_borrow_records Sample.clk Cases.everything Cases.two_loans)
    as [rows|e] eqn:H; [|vm_compute in H; discriminate H].
  exists rows. split; [reflexivity|].
  exact (list_borrow_records_newest_first Sample.clk Cases.everything
           Cases.two_loans rows H).
Defined.

Lemma select_where_ext {A} (p p' : A -> bool) (tbl : gmap Z A) :
  (forall a, p a = p' a) -> select_where p tbl = select_where p' tbl.
Proof.
  intros Hpp. unfold select_where. apply List.filter_ext. intros [k a]. apply Hpp.
Qed.



(** [user_id=0] and [book_id=0] are read as "no filter": the answer is the
    one the same query gives with the parameter left out. *)
Lemma list_borrow_records_zero_id_is_no_filter clk q st :
  list_borrow_records clk
    (mk_list_params (Some 0) (Some 0) (lp_is_returned q) (lp_is_overdue q)
                    (lp_limit q) (lp_offset q)) st
  = list_borrow_records clk
      (mk_list_params None None (lp_is_returned q) (lp_is_overdue q)
                      (lp_limit q) (lp_offset q)) st.
Proof.
  unfold list_borrow_records. simpl.
  rewrite (select_where_ext _
             (list_where clk (mk_list_params None None (lp_is_returned q)
                                (lp_is_overdue q) (lp_limit q) (lp_offset q))));
    [reflexivity|].
  intros r. reflexivity.
Qed.

(** The page of [GET /borrow-records]: a limit above 100 or a negative
    offset is answered 422; with a limit from 0 to 100 the answer has at most
    that many rows. *)
Theorem list_borrow_records_page clk q st :
  (100 < lp_limit q ->
   list_borrow_records clk q st = Raise (RequestValidationError "limit")) /\
  (lp_limit q <= 100 -> lp_offset q < 0 ->
   list_borrow_records clk q st = Raise (RequestValidationError "offset")) /\
  (forall rows, list_borrow_records clk q st = Ok rows ->
     0 <= lp_limit q -> Z.of_nat (List.length rows) <= lp_limit q).
Proof.
  split; [|split].
  - intros Hl. unfold list_borrow_records. unfold_result.
    destruct (check_number list_limit_query _) eqn:E; [|reflexivity].
    apply check_le_accepted in E. lia.
  - intros Hl Ho. unfold list_borrow_records. unfold_result.
    apply check_le_accepted in Hl. unfold list_limit_query. rewrite Hl.
    destruct (check_number offset_query (inject_Z (lp_offset q))) eqn:E;
      [|reflexivity].
    apply check_offset_accepted in E. lia.
  - intros rows H Hl. apply list_borrow_records_Ok_inv in H as (_ & _ & ->).
    apply offset_limit_length, Hl.
Qed.

Lemma list_borrow_records_page_witness :
  exists rows,
    list_borrow_records Sample.clk Cases.everything Cases.two_loans = Ok rows /\
    0 <= lp_limit Cases.everything /\
    Z.of_nat (List.length rows) <= lp_limit Cases.everything.
Proof.
  destruct (list_borrow_records Sample.clk Cases.everything Cases.two_loans)
    as [rows|e] eqn:H; [|vm_compute in H; discriminate H].
  assert (Hl : 0 <= lp_limit Cases.everything) by (vm_compute; discriminate).
  exists rows. split; [reflexivity|]. split; [exact Hl|].
  exact (proj2 (proj2 (list_borrow_records_page Sample.clk Cases.everything
                         Cases.two_loans)) rows H Hl).
Defined.



Lemma get_overdue_records_Ok_inv clk limit offset st rows :
  get_overdue_records clk limit offset st = Ok rows ->
  limit <= 200 /\ 0 <= offset /\
  rows = offset_limit offset limit
           (order_by earliest_due_first
              (select_where (overdue_where clk) (borrow_records st))).
Proof.
  unfold get_overdue_records. unfold_result.
  destruct (check_number page_limit_query _) eqn:Hl; [|discriminate].
  destruct (check_number offset_query _) eqn:Ho; [|discriminate]. simpl.
  apply check_le_accepted in Hl. apply check_offset_accepted in Ho.
  intros [= <-]. auto.
Qed.

Lemma overdue_where_spec clk r : overdue_where clk r = is_overdue clk r.
Proof.
  unfold overdue_where, is_overdue, is_null. destruct (returned_date r); reflexivity.
Qed.

(** [GET /borrow-records/overdue/] answers only records that are overdue
    now, each with a positive count of days, the one due longest ago first,
    and at most [limit] of them. *)
Theorem get_overdue_records_rows clk limit offset st rows :
  get_overdue_records clk limit offset st = Ok rows ->
  (forall k r, In (k, r) rows ->
     borrow_records st !! k = Some r /\ is_overdue clk r = true /\
     0 < days_overdue clk r) /\
  StronglySorted (fun x y => due_date (snd x) <= due_date (snd y)) rows /\
  (0 <= limit -> Z.of_nat (List.length rows) <= limit).
Proof.
  intros H. apply get_overdue_records_Ok_inv in H as (_ & _ & ->).
  split; [|split].
  - intros k r Hin. apply listed_row_selected in Hin as [Hk Hw].
    rewrite overdue_where_spec in Hw. split; [exact Hk|]. split; [exact Hw|].
    apply (days_overdue_positive clk r), Hw.
  - eapply StronglySorted_sublist; [apply offset_limit_sublist|].
    pose proof (order_by_StronglySorted earliest_due_first
                  earliest_due_first_total earliest_due_first_trans
                  (select_where (overdue_where clk) (borrow_records st))) as Hs.
    induction Hs as [|x l Hs IH Hall]; constructor; [exact IH|].
    eapply Forall_impl; [exact Hall|]. intros y Hy. apply Z.leb_le, Hy.
  - apply offset_limit_length.
Qed.

Lemma get_overdue_records_rows_witness :
  exists rows,
    get_overdue_records Sample.clk 50 0 Cases.two_loans = Ok rows /\
    forall k r, In (k, r) rows -> is_overdue Sample.clk r = true.
Proof.
  destruct (get_overdue_records Sample.clk 50 0 Cases.two_loans)
    as [rows|e] eqn:H; [|vm_compute in H; discriminate H].
  exists rows. split; [reflexivity|]. intros k r Hin.
  destruct (get_overdue_records_rows Sample.clk 50 0 Cases.two_loans rows H)
    as (Hrows & _).
  exact (proj1 (proj2 (Hrows k r Hin))).
Defined.

(** [GET /borrow-records/due-soon/] takes 1 to 7 days.  Any other [days] is
    refused with 422.  With [days] from 1 to 7, a [limit] of at most 200 and
    an [offset] of at least 0, both 64-bit, and a date that many days ahead,
    the query runs: the route answers its rows with 200, or 500 when one of
    them fails the response schema, and 200 when all of them render.  The
    rows are ACTIVE records due from today to that many days ahead, none of
    them overdue: no record is in the due-soon answer and in the overdue
    answer of the same moment. *)
Theorem due_soon_and_overdue_disjoint email_ok clk days limit offset st :
  (days < 1 \/ 7 < days ->
   get_due_soon_records clk days limit offset st
   = Raise (RequestValidationError "days") /\
   due_soon_endpoint email_ok clk days limit offset st
   = mk_response st (Failure (RequestValidationError "days")) /\
   outcome_status (outcome (due_soon_endpoint email_ok clk days limit offset st)) = 422) /\
  (1 <= days <= 7 -> limit <= 200 -> 0 <= offset ->
   fits_int64 limit = true -> fits_int64 offset = true ->
   valid (today clk) = true -> today clk + days <= MAXORDINAL ->
   exists soon,
     get_due_soon_records clk days limit offset st = Ok soon /\
     (due_soon_endpoint email_ok clk days limit offset st
      = mk_response st (Answer soon) \/
      exists loc, due_soon_endpoint email_ok clk days limit offset st
                  = mk_response st (ResponseInvalid loc)) /\
     (render_rows email_ok st soon = None ->
      due_soon_endpoint email_ok clk days limit offset st
      = mk_response st (Answer soon))) /\
  (forall soon,
     get_due_soon_records clk days limit offset st = Ok soon ->
     1 <= days <= 7 /\
     (forall k r, In (k, r) soon ->
        borrow_records st !! k = Some r /\ returned_date r = None /\
        today clk <= due_date r <= today clk + days /\
        is_overdue clk r = false) /\
     (forall limit' offset' late,
        get_overdue_records clk limit' offset' st = Ok late ->
        forall x, In x soon -> ~ In x late)).
Proof.
  assert (Hdq : check_number days_query (inject_Z days) = (1 <=? days) && (days <=? 7)).
  { unfold check_number, days_query. cbn -[Qle_bool inject_Z].
    rewrite !Qle_bool_inject_Z, andb_true_r. reflexivity. }
  split; [|split].
  - intros Hdays.
    assert (H : get_due_soon_records clk days limit offset st
                = Raise (RequestValidationError "days")).
    { unfold get_due_soon_records. unfold_result. rewrite Hdq.
      assert (E : (1 <=? days) && (days <=? 7) = false).
      { apply andb_false_iff. destruct Hdays; [left; apply Z.leb_gt|right; apply Z.leb_gt]; lia. }
      rewrite E. reflexivity. }
    split; [exact H|]. unfold due_soon_endpoint. rewrite H. split; reflexivity.
  - intros Hdays Hlimit Hoffset Hl64 Ho64 Htoday Hmax.
    assert (H : get_due_soon_records clk days limit offset st
                = Ok (offset_limit offset limit
                        (order_by earliest_due_first
                           (select_where (due_soon_where clk (today clk + days))
                                         (borrow_records st))))).
    { unfold get_due_soon_records. unfold_result. rewrite Hdq.
      assert (E : (1 <=? days) && (days <=? 7) = true)
        by (apply andb_true_iff; split; apply Z.leb_le; lia).
      rewrite E.
      apply (proj2 (check_le_accepted 200 limit)) in Hlimit.
      unfold page_limit_query. rewrite Hlimit.
      apply check_offset_accepted in Hoffset. rewrite Hoffset. simpl.
      unfold add_days. simpl.
      unfold valid, MINORDINAL in Htoday.
      apply andb_true_iff in Htoday as [Ht1 Ht2]. apply Z.leb_le in Ht1.
      assert (E2 : (0 <? today clk + days) && (today clk + days <=? MAXORDINAL) = true)
        by (apply andb_true_iff; split; [apply Z.ltb_lt|apply Z.leb_le]; lia).
      rewrite E2. reflexivity. }
    eexists. split; [exact H|].
    unfold due_soon_endpoint. rewrite H, Hl64, Ho64. simpl.
    split.
    + destruct (render_rows email_ok st _) as [loc|];
        [right; exists loc; reflexivity|left; reflexivity].
    + intros ->. reflexivity.
  - intros soon Hs.
    unfold get_due_soon_records in Hs. unfold_result.
    destruct (check_number days_query (inject_Z days)) eqn:Hd; [|discriminate].
    destruct (check_number page_limit_query _); [|discriminate].
    destruct (check_number offset_query _); [|discriminate]. simpl in Hs.
    unfold add_days in Hs. simpl in Hs.
    destruct ((0 <? today clk + days) && (today clk + days <=? MAXORDINAL));
      [|discriminate].
    injection Hs as <-.
    assert (Hdays : 1 <= days <= 7).
    { symmetry in Hdq. apply andb_true_iff in Hdq as [H1 H2].
      apply Z.leb_le in H1, H2. lia. }
    assert (Hrows : forall k r,
              In (k, r) (offset_limit offset limit
                           (order_by earliest_due_first
                              (select_where (due_soon_where clk (today clk + days))
                                            (borrow_records st)))) ->
              borrow_records st !! k = Some r /\ returned_date r = None /\
              today clk <= due_date r <= today clk + days /\
              is_overdue clk r = false).
    { intros k r Hin. apply listed_row_selected in Hin as [Hk Hw].
      unfold due_soon_where, is_null in Hw.
      rewrite !andb_true_iff, !Z.leb_le in Hw. destruct Hw as ((Hn & H1) & H2).
      unfold is_overdue. destruct (returned_date r); [discriminate Hn|]. simpl.
      repeat split; auto. apply Z.ltb_ge. lia. }
    split; [exact Hdays|]. split; [exact Hrows|].
    intros limit' offset' late Hl.
    apply get_overdue_records_Ok_inv in Hl as (_ & _ & ->).
    intros [k r] Hin Hin'. apply Hrows in Hin as (_ & _ & _ & Hno).
    apply listed_row_selected in Hin' as [_ Hw].
    rewrite overdue_where_spec in Hw. congruence.
Qed.

Lemma due_soon_and_overdue_disjoint_witness :
  (* eight days are refused *)
  ((8 < 1 \/ 7 < 8) /\
   outcome_status
     (outcome (due_soon_endpoint Cases.has_at Sample.clk 8 50 0 Cases.two_loans))
   = 422) /\
  (* four days are answered *)
  ((1 <= 4 <= 7 /\ 50 <= 200 /\ 0 <= 0 /\
    fits_int64 50 = true /\ fits_int64 0 = true /\
    valid (today Sample.clk) = true /\ today Sample.clk + 4 <= MAXORDINAL) /\
   exists soon,
     due_soon_endpoint Cases.has_at Sample.clk 4 50 0 Cases.two_loans
     = mk_response Cases.two_loans (Answer soon) /\
     soon <> [] /\
     forall late, get_overdue_records Sample.clk 50 0 Cases.two_loans = Ok late ->
       late <> [] /\ forall x, In x soon -> ~ In x late).
Proof.
  destruct (due_soon_and_overdue_disjoint Cases.has_at Sample.clk 8 50 0 Cases.two_loans)
    as (Hrefused & _ & _).
  destruct (due_soon_and_overdue_disjoint Cases.has_at Sample.clk 4 50 0 Cases.two_loans)
    as (_ & Hanswered & Hrows).
  assert (H8 : 8 < 1 \/ 7 < 8) by (right; lia).
  assert (H4 : 1 <= 4 <= 7) by lia.
  assert (H50 : 50 <= 200) by lia.
  assert (H0 : 0 <= 0) by lia.
  assert (Hv : valid (today Sample.clk) = true) by reflexivity.
  assert (Hm : today Sample.clk + 4 <= MAXORDINAL) by (vm_compute; discriminate).
  split.
  - split; [exact H8|]. exact (proj2 (proj2 (Hrefused H8))).
  - split; [exact (conj H4 (conj H50 (conj H0 (conj eq_refl (conj eq_refl (conj Hv Hm))))))|].
    destruct (Hanswered H4 H50 H0 eq_refl eq_refl Hv Hm) as (soon & Hs & _ & Hrender).
    exists soon.
    assert (Hsoon : soon <> []).
    { intros ->. vm_compute in Hs. discriminate Hs. }
    assert (Hr : render_rows Cases.has_at Cases.two_loans soon = None).
    { vm_compute in Hs. injection Hs as <-. vm_compute. reflexivity. }
    split; [exact (Hrender Hr)|]. split; [exact Hsoon|].
    intros late Hl. split.
    + intros ->. vm_compute in Hl. discriminate Hl.
    + exact (proj2 (proj2 (Hrows soon Hs)) 50 0 late Hl).
Defined.

(** ** Passwords and book updates ([app/schema.py]) *)

Lemma re_search_spec class v :
  re_search class v = true <-> exists c, In c v /\ class c = true.
Proof. unfold re_search. apply existsb_exists. Qed.

Lemma ascii_letter_spec c :
  ascii_letter c = true <-> (65 <= c <= 90 \/ 97 <= c <= 122)%N.
Proof.
  unfold ascii_letter.
  rewrite orb_true_iff, !andb_true_iff, !N.leb_le. reflexivity.
Qed.

(** A password is accepted exactly when it has at least 8 characters, one of
    them a letter A-Z or a-z and one of them in the class of decimal digits
    of the [re] module; there is no upper bound on its length.  It is passed
    on unchanged, and every other password is answered 422. *)
Theorem parse_password_accepts decimal_digit v :
  (parse_password decimal_digit v = Ok v <->
   (8 <= length v)%nat /\
   (exists c, In c v /\ (65 <= c <= 90 \/ 97 <= c <= 122)%N) /\
   (exists c, In c v /\ decimal_digit c = true)) /\
  (parse_password decimal_digit v = Ok v \/
   parse_password decimal_digit v = Raise (RequestValidationError "password")).
Proof.
  assert (Hletter : re_search ascii_letter v = true <->
                    exists c, In c v /\ (65 <= c <= 90 \/ 97 <= c <= 122)%N).
  { rewrite re_search_spec. split; intros (c & Hc & H); exists c; split; auto;
      apply ascii_letter_spec; exact H. }
  rewrite <- Hletter, <- re_search_spec.
  unfold parse_password, validate_password, check_list, password_field.
  unfold_result. cbn -[Z.of_nat length Z.leb re_search].
  rewrite andb_true_r.
  destruct (8 <=? Z.of_nat (length v)) eqn:El; simpl.
  - apply Z.leb_le in El.
    destruct (re_search ascii_letter v); simpl.
    + destruct (re_search decimal_digit v); simpl.
      * split; [|left; reflexivity]. split; [intros _; repeat split; lia|reflexivity].
      * split; [|right; reflexivity].
        split; [discriminate|intros (_ & _ & H); discriminate H].
    + split; [|right; reflexivity].
      split; [discriminate|intros (_ & H & _); discriminate H].
  - apply Z.leb_gt in El. split; [|right; reflexivity].
    split; [discriminate|intros (H & _); lia].
Qed.

Lemma parse_password_accepts_witness :
  (* a digit of another script counts *)
  ((8 <= length Cases.arabic_digit_points)%nat /\
   (exists c, In c Cases.arabic_digit_points /\ (65 <= c <= 90 \/ 97 <= c <= 122)%N) /\
   (exists c, In c Cases.arabic_digit_points /\ Cases.two_digit_blocks c = true)) /\
  parse_password Cases.two_digit_blocks Cases.arabic_digit_points
  = Ok Cases.arabic_digit_points /\
  (* and so does an ASCII one *)
  parse_password Cases.two_digit_blocks Cases.secret_points = Ok Cases.secret_points /\
  (8 <= length Cases.secret_points)%nat.
Proof.
  assert (Hcond : (8 <= length Cases.arabic_digit_points)%nat /\
            (exists c, In c Cases.arabic_digit_points /\
                       (65 <= c <= 90 \/ 97 <= c <= 122)%N) /\
            (exists c, In c Cases.arabic_digit_points /\
                       Cases.two_digit_blocks c = true)).
  { split; [simpl; lia|]. split.
    - exists 112%N. split; [simpl; auto|right; lia].
    - exists 1635%N. split; [simpl; tauto|reflexivity]. }
  assert (H : parse_password Cases.two_digit_blocks Cases.secret_points
              = Ok Cases.secret_points) by reflexivity.
  refine (conj Hcond (conj _ (conj H _))).
  - exact (proj2 (proj1 (parse_password_accepts Cases.two_digit_blocks
                           Cases.arabic_digit_points)) Hcond).
  - exact (proj1 (proj1 (proj1 (parse_password_accepts Cases.two_digit_blocks
                                  Cases.secret_points)) H)).
Defined.

Lemma validate_update_title_iff s :
  validate_update_title s = true <-> (1 <= String.length s <= 200)%nat.
Proof.
  unfold validate_update_title, check_str, BookUpdateSchema.title_field.
  cbn -[Z.of_nat String.length Z.leb].
  rewrite !andb_true_iff, !Z.leb_le. lia.
Qed.

(** The update schema of a book and its creation schema disagree: a title
    passes the update with 1 to 200 characters, so every title creation
    accepts passes, and so do titles of 1 or of 101 to 200 characters that
    creation refuses; a page count passes the update only from 1 to 10000,
    while creation lets every integer through. *)
Theorem book_update_and_create_disagree :
  (forall s, validate_update_title s = true
             <-> (1 <= String.length s <= 200)%nat) /\
  (forall s, validate_title s = true -> validate_update_title s = true) /\
  (forall s, validate_update_title s = true /\ validate_title s = false
             <-> String.length s = 1%nat \/ (100 < String.length s <= 200)%nat) /\
  (forall n, validate_update_pages n = true <-> 0 < n <= 10000) /\
  (forall n, validate_pages n = true).
Proof.
  split; [exact validate_update_title_iff|].
  split; [intros s Hs; apply validate_update_title_iff;
          apply validate_title_iff in Hs; lia|].
  split; [|split; [exact update_pages_bounded|exact validate_pages_any]].
  intros s. rewrite validate_update_title_iff.
  destruct (validate_title s) eqn:E.
  - apply validate_title_iff in E. split; [intros [_ H]; discriminate H|lia].
  - assert (Hn : ~ (2 <= String.length s <= 100)%nat).
    { intros H. apply validate_title_iff in H. congruence. }
    split; [intros [H _]; lia|intros H; split; [lia|reflexivity]].
Qed.

Lemma book_update_and_create_disagree_witness :
  validate_title "Dune" = true /\ validate_update_title "Dune" = true.
Proof.
  assert (H : validate_title "Dune" = true) by reflexivity.
  split; [exact H|].
  exact (proj1 (proj2 book_update_and_create_disagree) "Dune"%string H).
Defined.

(** ** Users and login *)

Lemma users_by_email_In email st k u :
  In (k, u) (users_by_email email st) <->
  users st !! k = Some u /\ user_email u = email.
Proof.
  unfold users_by_email. rewrite select_where_In, String.eqb_eq. reflexivity.
Qed.

Lemma check_email_exists_spec st email :
  check_email_exists st email = true <->
  exists k u, users st !! k = Some u /\ user_email u = email.
Proof.
  unfold check_email_exists.
  destruct (users_by_email email st) as [|[k u] l] eqn:E; simpl.
  - split; [discriminate|]. intros (k & u & Hk & He).
    assert (Hin : In (k, u) (users_by_email email st))
      by (apply users_by_email_In; auto).
    rewrite E in Hin. destruct Hin.
  - split; [|reflexivity]. intros _. exists k, u.
    apply users_by_email_In. rewrite E. left. reflexivity.
Qed.

Lemma create_user_inr_inv hash p st st' id u :
  create_user hash p st = inr (st', (id, u)) ->
  check_email_exists st (uc_email p) = false /\
  id = next_id (users st) /\
  u = mk_user (uc_name p) (uc_email p) (uc_role p) (uc_is_active p)
              (hash (uc_password p)) /\
  st' = with_users (<[id := u]> (users st)) st.
Proof.
  unfold create_user. destruct (check_email_exists st (uc_email p)); [discriminate|].
  intros [= <- <- <-]. auto.
Qed.

Lemma create_user_unique hash p st st' id u :
  emails_unique st -> create_user hash p st = inr (st', (id, u)) ->
  emails_unique st'.
Proof.
  intros Huniq H. apply create_user_inr_inv in H as (Hfree & -> & -> & ->).
  assert (Hno : forall k v, users st !! k = Some v -> user_email v <> uc_email p).
  { intros k v Hk He.
    assert (Hex : check_email_exists st (uc_email p) = true)
      by (apply check_email_exists_spec; eauto).
    congruence. }
  intros i j a b Hi Hj He. simpl in Hi, Hj.
  apply lookup_insert_Some in Hi as [[<- <-]|[Hni Hi]];
    apply lookup_insert_Some in Hj as [[<- <-]|[Hnj Hj]].
  - reflexivity.
  - exfalso. simpl in He. eapply Hno; eauto.
  - exfalso. simpl in He. eapply Hno; eauto.
  - eapply Huniq; eauto.
Qed.

(** Registration keeps emails unique.  A successful [create_user] adds one
    row under a fresh id, with the payload's email and the hash of its
    password, and changes no other row; from then on every registration with
    that email is refused with 400, whatever else it carries. *)
Theorem create_user_keeps_emails_unique hash p st st' id u :
  emails_unique st ->
  create_user hash p st = inr (st', (id, u)) ->
  emails_unique st' /\
  users st !! id = None /\ users st' !! id = Some u /\
  (forall k, k <> id -> users st' !! k = users st !! k) /\
  user_email u = uc_email p /\ hashed_password u = hash (uc_password p) /\
  books st' = books st /\ borrow_records st' = borrow_records st /\
  (forall hash' p', uc_email p' = uc_email p ->
     create_user hash' p' st' = inl (AccountHTTP 400 EmailAlreadyRegistered)).
Proof.
  intros Huniq H. split; [eapply create_user_unique; eauto|].
  apply create_user_inr_inv in H as (_ & -> & -> & ->). simpl.
  split; [apply next_id_fresh|]. split; [apply lookup_insert_eq|].
  split; [intros k Hk; apply lookup_insert_ne; congruence|].
  repeat split.
  intros hash' p' He. unfold create_user.
  assert (Hex : check_email_exists
                  (with_users (<[next_id (users st) :=
                                   mk_user (uc_name p) (uc_email p) (uc_role p)
                                           (uc_is_active p) (hash (uc_password p))]>
                                 (users st)) st) (uc_email p') = true).
  { apply check_email_exists_spec. eexists _, _. simpl.
    rewrite lookup_insert_eq. split; [reflexivity|]. simpl. congruence. }
  rewrite Hex. reflexivity.
Qed.

Lemma sample_library_emails_unique : emails_unique Sample.library.
Proof.
  intros i j u v Hi Hj He. simpl in Hi, Hj.
  apply lookup_insert_Some in Hi as [[<- <-]|[_ Hi]];
    apply lookup_insert_Some in Hj as [[<- <-]|[_ Hj]]; try reflexivity.
  - apply lookup_insert_Some in Hj as [[<- <-]|[_ Hj]];
      [discriminate He|rewrite lookup_empty in Hj; discriminate].
  - apply lookup_insert_Some in Hi as [[<- <-]|[_ Hi]];
      [discriminate He|rewrite lookup_empty in Hi; discriminate].
  - apply lookup_insert_Some in Hi as [[<- <-]|[_ Hi]];
      [|rewrite lookup_empty in Hi; discriminate].
    apply lookup_insert_Some in Hj as [[<- <-]|[_ Hj]];
      [|rewrite lookup_empty in Hj; discriminate].
    reflexivity.
Qed.

Lemma create_user_keeps_emails_unique_witness :
  emails_unique Sample.library /\
  exists st' id u,
    create_user Cases.toy_hash Cases.carla Sample.library = inr (st', (id, u)) /\
    emails_unique st' /\
    create_user Cases.toy_hash Cases.carla st'
    = inl (AccountHTTP 400 EmailAlreadyRegistered).
Proof.
  split; [exact sample_library_emails_unique|].
  destruct (create_user Cases.toy_hash Cases.carla Sample.library)
    as [e|[st' [id u]]] eqn:H; [vm_compute in H; discriminate H|].
  exists st', id, u. split; [reflexivity|].
  destruct (create_user_keeps_emails_unique Cases.toy_hash Cases.carla
              Sample.library st' id u sample_library_emails_unique H)
    as (Hu & _ & _ & _ & _ & _ & _ & _ & Hagain).
  split; [exact Hu|]. exact (Hagain Cases.toy_hash Cases.carla eq_refl).
Defined.

Lemma users_by_email_unique st k u :
  emails_unique st -> users st !! k = Some u ->
  users_by_email (user_email u) st = [(k, u)].
Proof.
  intros Huniq Hk.
  assert (Hnd : List.NoDup (users_by_email (user_email u) st))
    by apply select_where_NoDup.
  assert (Hin : In (k, u) (users_by_email (user_email u) st))
    by (apply users_by_email_In; auto).
  assert (Hall : forall x, In x (users_by_email (user_email u) st) -> x = (k, u)).
  { intros [k' u'] Hx. apply users_by_email_In in Hx as [Hk' He].
    assert (k' = k) as -> by (eapply Huniq; eauto). congruence. }
  destruct (users_by_email (user_email u) st) as [|a l]; [destruct Hin|].
  assert (a = (k, u)) as -> by (apply Hall; left; reflexivity).
  destruct l as [|b l]; [reflexivity|].
  assert (b = (k, u)) as -> by (apply Hall; right; left; reflexivity).
  exfalso. apply List.NoDup_cons_iff in Hnd as [Hnot _]. apply Hnot. left. reflexivity.
Qed.

(** With unique emails, a login is decided by the row of that email alone:
    it answers the user when the password verifies against the stored hash
    and the user is active, and 401 otherwise - also for an email nobody
    has.  An inactive user cannot log in with the right password. *)
Theorem login_outcome verify st :
  emails_unique st ->
  (forall k u password, users st !! k = Some u ->
     login verify (user_email u) password st
     = if verify password (hashed_password u) && is_active u
       then inr u else inl (AccountHTTP 401 IncorrectEmailOrPassword)) /\
  (forall email password, check_email_exists st email = false ->
     login verify email password st = inl (AccountHTTP 401 IncorrectEmailOrPassword)).
Proof.
  intros Huniq. split.
  - intros k u password Hk. unfold login, authenticate_user.
    rewrite (users_by_email_unique st k u Huniq Hk). simpl.
    destruct (verify password (hashed_password u)); simpl; [|reflexivity].
    destruct (is_active u); reflexivity.
  - intros email password Hno. unfold login, authenticate_user.
    unfold check_email_exists in Hno.
    destruct (head (users_by_email email st)); [discriminate Hno|reflexivity].
Qed.

Lemma login_outcome_witness :
  emails_unique Sample.library /\
  users Sample.library !! 1 = Some Sample.alice /\
  login Cases.toy_verify (user_email Sample.alice) "wrong" Sample.library
  = inl (AccountHTTP 401 IncorrectEmailOrPassword).
Proof.
  assert (Hk : users Sample.library !! 1 = Some Sample.alice) by reflexivity.
  refine (conj sample_library_emails_unique (conj Hk _)).
  rewrite (proj1 (login_outcome Cases.toy_verify Sample.library
                    sample_library_emails_unique) 1 Sample.alice "wrong"%string Hk).
  reflexivity.
Defined.

(** Register, then log in: with unique emails and a hash its own password
    verifies against, a user registered as active logs in with the password
    of the registration and gets the registered row back. *)
Theorem register_then_login hash verify p st st' id u :
  emails_unique st ->
  create_user hash p st = inr (st', (id, u)) ->
  uc_is_active p = true ->
  verify (uc_password p) (hash (uc_password p)) = true ->
  login verify (uc_email p) (uc_password p) st' = inr u.
Proof.
  intros Huniq H Hact Hver.
  pose proof (create_user_unique hash p st st' id u Huniq H) as Huniq'.
  apply create_user_inr_inv in H as (_ & -> & -> & ->).
  set (u := mk_user (uc_name p) (uc_email p) (uc_role p) (uc_is_active p)
                    (hash (uc_password p))) in *.
  assert (Hk : users (with_users (<[next_id (users st) := u]> (users st)) st)
               !! next_id (users st) = Some u) by apply lookup_insert_eq.
  pose proof (proj1 (login_outcome verify _ Huniq') _ u (uc_password p) Hk) as Hl.
  simpl in Hl. rewrite Hver, Hact in Hl. exact Hl.
Qed.

Lemma register_then_login_witness :
  exists st' id u,
    create_user Cases.toy_hash Cases.carla Sample.library = inr (st', (id, u)) /\
    login Cases.toy_verify (uc_email Cases.carla) (uc_password Cases.carla) st'
    = inr u.
Proof.
  destruct (create_user Cases.toy_hash Cases.carla Sample.library)
    as [e|[st' [id u]]] eqn:H; [vm_compute in H; discriminate H|].
  exists st', id, u. split; [reflexivity|].
  exact (register_then_login Cases.toy_hash Cases.toy_verify Cases.carla
           Sample.library st' id u sample_library_emails_unique H eq_refl eq_refl).
Defined.

(** A deactivated user cannot borrow: after [deactivate_user], every create
    for that user is refused with 400 (user not active), before the book is
    even looked up.  Books and borrow records are untouched, so the user's
    open loans stay open; [activate_user] makes the user active again. *)
Theorem deactivated_user_cannot_borrow uid st st' :
  deactivate_user uid st = Ok (st', tt) ->
  (forall clk p, c_user_id p = uid ->
     create_borrow_record clk p st' = Raise (HTTPException 400 UserNotActive)) /\
  books st' = books st /\ borrow_records st' = borrow_records st /\
  (forall k, k <> uid -> users st' !! k = users st !! k) /\
  exists st'' u,
    activate_user uid st' = Ok (st'', tt) /\
    users st'' !! uid = Some u /\ is_active u = true.
Proof.
  unfold deactivate_user. unfold_result.
  destruct (users st !! uid) as [u|] eqn:Hu; [|discriminate].
  intros [= <-]. simpl. split.
  - intros clk p <-. unfold create_borrow_record. unfold_result. simpl.
    rewrite lookup_insert_eq. reflexivity.
  - split; [reflexivity|]. split; [reflexivity|].
    split; [intros k Hk; apply lookup_insert_ne; congruence|].
    unfold activate_user. unfold_result. simpl. rewrite lookup_insert_eq.
    eexists _, _. split; [reflexivity|]. simpl. rewrite lookup_insert_eq.
    split; reflexivity.
Qed.

Lemma deactivated_user_cannot_borrow_witness :
  exists st',
    deactivate_user 2 Sample.library = Ok (st', tt) /\
    create_borrow_record Sample.clk Sample.plain_borrow st'
    = Raise (HTTPException 400 UserNotActive).
Proof.
  destruct (deactivate_user 2 Sample.library) as [[st' []]|e] eqn:H;
    [|vm_compute in H; discriminate H].
  exists st'. split; [reflexivity|].
  exact (proj1 (deactivated_user_cannot_borrow 2 Sample.library st' H)
           Sample.clk Sample.plain_borrow eq_refl).
Defined.

(** [GET /users] never answers a list: a limit above 100 or a negative
    offset is a 422, and every other call stops at
    [order_by(User.full_name)], an attribute the class [User] does not have. *)
Theorem list_users_always_fails role active limit offset st :
  (exists e, list_users role active limit offset st = Raise e) /\
  (limit <= 100 -> 0 <= offset ->
   list_users role active limit offset st
   = Raise (Unhandled (AttributeError "User" "full_name"))).
Proof.
  unfold list_users. unfold_result.
  destruct (check_number list_limit_query (inject_Z limit)) eqn:Hl;
    destruct (check_number offset_query (inject_Z offset)) eqn:Ho; simpl.
  - split; [eexists; reflexivity|reflexivity].
  - split; [eexists; reflexivity|].
    intros _ H. apply check_offset_accepted in H. congruence.
  - split; [eexists; reflexivity|].
    intros H _. apply check_le_accepted in H. unfold list_limit_query in Hl. congruence.
  - split; [eexists; reflexivity|].
    intros H _. apply check_le_accepted in H. unfold list_limit_query in Hl. congruence.
Qed.

Lemma list_users_always_fails_witness :
  20 <= 100 /\ 0 <= 0 /\
  list_users None None 20 0 Sample.library
  = Raise (Unhandled (AttributeError "User" "full_name")).
Proof.
  assert (Hl : 20 <= 100) by lia. assert (Ho : 0 <= 0) by lia.
  refine (conj Hl (conj Ho _)).
  exact (proj2 (list_users_always_fails None None 20 0 Sample.library) Hl Ho).
Defined.

(** [DELETE /users/{id}] never deletes anyone: an unknown id is a 404, a
    known one raises [NameError], and in both cases the store is left as it
    was. *)
Lemma delete_user_never_deletes uid st :
  (users st !! uid = None ->
   delete_user uid st = Raise (HTTPException 404 UserNotFound)) /\
  (forall u, users st !! uid = Some u ->
   delete_user uid st = Raise (Unhandled (NameError "BorrowRecord"))) /\
  (exists e, delete_user uid st = Raise e) /\
  store_after st (delete_user uid st) = st.
Proof.
  unfold delete_user, delete_user_in. unfold_result.
  destruct (users st !! uid) as [u|]; simpl.
  - split; [discriminate|]. split; [reflexivity|].
    split; [eexists; reflexivity|reflexivity].
  - split; [reflexivity|]. split; [discriminate|].
    split; [eexists; reflexivity|reflexivity].
Qed.

